(** * uniqush-conn: the server-side connection logic and the redis message cache

    A shallow embedding of
      - [proto/server/obsolete/conn.go]  (serverConn: digest / compress
        decisions, digest construction, command dispatch, cutString), and
      - the redis backed message cache (msgKey, Set, Get, Del),
    followed by the properties of the two that the specification talks about.

    Conventions.  Go's [int] is the 64 bit integer of the common platforms and
    [int32] the 32 bit one; both are carried as [Z], and every narrowing
    conversion [int32(x)] is written out as [GoInt.int32].  A Go [string] is a
    sequence of bytes and is carried as a [string]; a [[]byte] is a
    [list byte]; a [map[string]string] is a [gmap string string] (a nil map
    and an empty map are both the empty map: the code only ever asks for
    their length and looks keys up).  A pointer that may be nil is an
    [option]; an [error] result is an [option error], [None] being nil. *)

From Stdlib Require Import ZArith String Ascii DecimalString Lia.
From Stdlib.Strings Require Import Byte.
From stdpp Require Import gmap strings list fin_maps.

Open Scope Z_scope.

(** ** Errors *)

Inductive error : Type :=
  | ErrBadPeerImpl                 (* proto.ErrBadPeerImpl *)
  | ErrMalformedCommand            (* proto.ErrMalformedCommand *)
  | ErrNil                         (* redis.ErrNil: "redigo: nil returned" *)
  | ErrReply (text : string)       (* an error reply of the redis server *)
  | ErrUnexpectedType              (* redigo: unexpected type for ... *)
  | ErrSyntax                      (* strconv.ErrSyntax *)
  | ErrRange                       (* strconv.ErrRange *)
  | ErrJSON (text : string)        (* encoding/json failures *)
  | ErrIO (text : string).         (* a failed read or write on a transport *)

(** ** Go integers and their string conversions *)

Module GoInt.

(** The conversion [int32(x)] of an [int]: the low 32 bits, read as a two's
    complement number. *)
Definition int32 (x : Z) : Z := (x + 2 ^ 31) mod 2 ^ 32 - 2 ^ 31.

Definition in_int32 (x : Z) : Prop := - 2 ^ 31 <= x < 2 ^ 31.

Definition fits_int (x : Z) : bool := (- 2 ^ 63 <=? x) && (x <? 2 ^ 63).

(** [fmt.Sprintf("%v", n)] for an [int]: the decimal numeral. *)
Definition Sprintf_v (n : Z) : string := NilZero.string_of_int (Z.to_int n).

Definition digit_of (c : ascii) : option Z :=
  let n := Z.of_nat (nat_of_ascii c) in
  if (48 <=? n) && (n <=? 57) then Some (n - 48) else None.

Fixpoint digits (s : string) (acc : Z) : option Z :=
  match s with
  | EmptyString => Some acc
  | String c r =>
      match digit_of c with
      | Some d => digits r (10 * acc + d)
      | None => None
      end
  end.

(** [strconv.Atoi]: an optional sign, then one or more decimal digits; the
    value has to fit an [int]. *)
Definition Atoi (s : string) : Z + error :=
  let '(neg, body) :=
    match s with
    | String "-"%char r => (true, r)
    | String "+"%char r => (false, r)
    | _ => (false, s)
    end in
  match body with
  | EmptyString => inr ErrSyntax
  | _ =>
      match digits body 0 with
      | None => inr ErrSyntax
      | Some n =>
          let v := if neg then - n else n in
          if fits_int v then inl v else inr ErrRange
      end
  end.

End GoInt.

(** ** Package proto: messages and commands *)

Module Proto.

(** Modelled from the spec: proto.Message, whose declaration is not among
    the sources.  {Id, Sender, SenderService, Header, Body}. *)
Record Message : Type := mkMessage {
  Id : string;
  Sender : string;
  SenderService : string;
  Header : gmap string string;
  Body : list byte
}.

(** [new(proto.Message)] *)
Definition newMessage : Message := mkMessage "" "" "" ∅ [].

Definition withId (id : string) (m : Message) : Message :=
  mkMessage id (Sender m) (SenderService m) (Header m) (Body m).

Definition withSender (user service : string) (m : Message) : Message :=
  mkMessage (Id m) user service (Header m) (Body m).

(** Modelled from the spec: content equality looks at Header and Body only. *)
Definition EqContent (a b : Message) : Prop :=
  Header a = Header b ∧ Body a = Body b.

(** Modelled from the spec: the command types of the protocol. *)
Inductive CommandType : Type :=
  | CMD_SUBSCRIPTION
  | CMD_SET_VISIBILITY
  | CMD_FWD_REQ
  | CMD_SETTING
  | CMD_MSG_RETRIEVE
  | CMD_REQ_ALL_CACHED
  | CMD_DIGEST.

(** Modelled from the spec: proto.Command {Type, Params, Message}. *)
Record Command : Type := mkCommand {
  Type_ : CommandType;
  Params : list string;
  CmdMessage : option Message
}.

(** What a connection has put on the wire: a message frame or a command
    frame, each with its compression flag. *)
Inductive Frame : Type :=
  | MessageFrame (m : Message) (compress : bool)
  | CommandFrame (c : Command) (compress : bool).

End Proto.

(** ** Package server: serverConn *)

Module Server.
Import Proto.

Record SubscribeRequest : Type := mkSubscribeRequest {
  Subscribe : bool;
  SubService : string;
  SubUsername : string;
  SubParams : gmap string string
}.

Record ForwardRequest : Type := mkForwardRequest {
  Receiver : string;
  ReceiverService : string;
  TTL : Z;
  FwdMessage : Message
}.

(** The part of the msgcache.Cache interface that serverConn calls.  A
    cache is shared with other connections, so what it answers is not
    determined by this connection: the two methods are the answers the
    cache gives at the time of the call.  A slot of the returned slice may
    hold a nil message. *)
Record Cache : Type := mkCache {
  cacheGet : string → string → string → option Message * option error;
  GetCachedMessages :
    string → string → list string → list (option Message) * option error
}.

(** serverConn.  [Service] and [Username] are the identity of the embedded
    proto.Conn.  A channel is the sequence of values pushed into it so far
    ([None] is the nil channel).  [wire] is what has been written to the
    peer; [wfaults] foretells the outcome of the writes still to come
    ([Some e] is a write that fails with [e]; past the end of the list
    every write succeeds). *)
Record serverConn : Type := mkConn {
  Service : string;
  Username : string;
  digestThreshold : Z;
  compressThreshold : Z;
  visible : Z;
  digestFields : list string;
  mcache : option Cache;
  fwdChan : option (list ForwardRequest);
  subChan : option (list SubscribeRequest);
  wire : list Frame;
  wfaults : list (option error)
}.

Definition set_digestThreshold (d : Z) (s : serverConn) : serverConn :=
  mkConn (Service s) (Username s) d (compressThreshold s) (visible s)
         (digestFields s) (mcache s) (fwdChan s) (subChan s) (wire s) (wfaults s).

Definition set_compressThreshold (c : Z) (s : serverConn) : serverConn :=
  mkConn (Service s) (Username s) (digestThreshold s) c (visible s)
         (digestFields s) (mcache s) (fwdChan s) (subChan s) (wire s) (wfaults s).

Definition set_visible (v : Z) (s : serverConn) : serverConn :=
  mkConn (Service s) (Username s) (digestThreshold s) (compressThreshold s) v
         (digestFields s) (mcache s) (fwdChan s) (subChan s) (wire s) (wfaults s).

Definition set_digestFields (fs : list string) (s : serverConn) : serverConn :=
  mkConn (Service s) (Username s) (digestThreshold s) (compressThreshold s)
         (visible s) fs (mcache s) (fwdChan s) (subChan s) (wire s) (wfaults s).

Definition set_fwdChan (ch : option (list ForwardRequest)) (s : serverConn) : serverConn :=
  mkConn (Service s) (Username s) (digestThreshold s) (compressThreshold s)
         (visible s) (digestFields s) (mcache s) ch (subChan s) (wire s) (wfaults s).

Definition set_subChan (ch : option (list SubscribeRequest)) (s : serverConn) : serverConn :=
  mkConn (Service s) (Username s) (digestThreshold s) (compressThreshold s)
         (visible s) (digestFields s) (mcache s) (fwdChan s) ch (wire s) (wfaults s).

Definition set_io (w : list Frame) (fs : list (option error)) (s : serverConn) : serverConn :=
  mkConn (Service s) (Username s) (digestThreshold s) (compressThreshold s)
         (visible s) (digestFields s) (mcache s) (fwdChan s) (subChan s) w fs.

(** SetMessageCache, SetForwardRequestChannel, SetSubscribeRequestChan *)
Definition SetMessageCache (cache : option Cache) (s : serverConn) : serverConn :=
  mkConn (Service s) (Username s) (digestThreshold s) (compressThreshold s)
         (visible s) (digestFields s) cache (fwdChan s) (subChan s) (wire s) (wfaults s).

Definition SetForwardRequestChannel := set_fwdChan.
Definition SetSubscribeRequestChan := set_subChan.

(** NewConn: the defaults of a fresh connection. *)
Definition NewConn (service username : string) : serverConn :=
  mkConn service username (-1) 512 1 [] None None None [] [].

Definition Visible (s : serverConn) : bool := 0 <? visible s.

(** Modelled from the spec: WriteMessage of the embedded connection and
    WriteCommand of its CommandIO, which are not among the sources.  A
    write either fails with the error the transport reports, or puts the
    frame, with its compression flag, on the wire. *)
Definition writeFrame (f : Frame) (s : serverConn) : serverConn * option error :=
  match wfaults s with
  | Some e :: later => (set_io (wire s) later s, Some e)
  | None :: later => (set_io (wire s ++ [f]) later s, None)
  | [] => (set_io (wire s ++ [f]) [] s, None)
  end.

Definition WriteMessage (msg : Message) (compress : bool) :=
  writeFrame (MessageFrame msg compress).

Definition WriteCommand (cmd : Command) (compress : bool) :=
  writeFrame (CommandFrame cmd compress).

Section WithSize.

(** [msg.Size()], an [int]; proto.Message's method is not among the
    sources, and nothing below depends on how it counts. *)
Variable Size : Message → Z.

(** [time.ParseDuration]; ProcessCommand drops its error. *)
Variable ParseDuration : string → Z * option error.

Definition shouldDigest (s : serverConn) (msg : Message) : Z * bool :=
  let sz := Size msg in
  let d := digestThreshold s in
  (sz, (0 <=? d) && (d <? GoInt.int32 sz)).

(** The compression decision, which writeAutoCompress and writeDigest
    both spell out. *)
Definition shouldCompress (s : serverConn) (sz : Z) : bool :=
  let c := compressThreshold s in
  (0 <? c) && (c <? GoInt.int32 sz).

Definition writeAutoCompress (s : serverConn) (msg : Message) (sz : Z)
  : serverConn * option error :=
  WriteMessage msg (shouldCompress s sz) s.

Definition fromServer (s : serverConn) (msg : Message) : bool :=
  if bool_decide (Sender msg = "") then true
  else if bool_decide (Sender msg = Username s) then
    if bool_decide (SenderService msg = "") then true
    else if bool_decide (SenderService msg = Service s) then true
    else false
  else false.

(** One round of the loop of writeDigest over the digest fields: the
    message header is consulted first and the extra map second, both writing
    into the same map. *)
Definition digestRound (hdr extra header : gmap string string) (f : string)
  : gmap string string :=
  let header1 :=
    if bool_decide (size hdr ≠ 0%nat) then
      match hdr !! f with Some v => <[f := v]> header | None => header end
    else header in
  if bool_decide (size extra ≠ 0%nat) then
    match extra !! f with Some v => <[f := v]> header1 | None => header1 end
  else header1.

Fixpoint digestHeader (fields : list string) (hdr extra header : gmap string string)
  : gmap string string :=
  match fields with
  | [] => header
  | f :: rest => digestHeader rest hdr extra (digestRound hdr extra header f)
  end.

(** The command that writeDigest assembles before it writes it. *)
Definition digestCommand (s : serverConn) (msg : Message)
    (extra : gmap string string) (sz : Z) (id : string) : Command :=
  let params := [GoInt.Sprintf_v sz; id] in
  let params :=
    if negb (fromServer s msg)
    then (params ++ [Sender msg]) ++ [SenderService msg]
    else params in
  let header := digestHeader (digestFields s) (Header msg) extra ∅ in
  let attached :=
    if bool_decide (size header ≠ 0%nat)
    then Some (mkMessage "" "" "" header [])
    else None in
  mkCommand CMD_DIGEST params attached.

Definition writeDigest (s : serverConn) (msg : Message)
    (extra : gmap string string) (sz : Z) (id : string)
  : serverConn * option error :=
  WriteCommand (digestCommand s msg extra sz id) (shouldCompress s sz) s.

(** The loop of sendAllCachedMessage over the messages of the cache. *)
Fixpoint sendEach (msgs : list (option Message)) (s : serverConn)
  : serverConn * option error :=
  match msgs with
  | [] => (s, None)
  | None :: rest => sendEach rest s
  | Some msg :: rest =>
      let '(sz, sendDigest) := shouldDigest s msg in
      let '(s1, err) :=
        if sendDigest then writeDigest s msg ∅ sz (Id msg)
        else writeAutoCompress s msg sz in
      match err with
      | Some e => (s1, Some e)
      | None => sendEach rest s1
      end
  end.

(** sendAllCachedMessage; [cache] is [self.mcache], which its one caller
    has checked not to be nil. *)
Definition sendAllCachedMessage (cache : Cache) (s : serverConn)
    (excludes : list string) : serverConn * option error :=
  let '(msgs, err) := GetCachedMessages cache (Service s) (Username s) excludes in
  match err with
  | Some e => (s, Some e)
  | None => sendEach msgs s
  end.

(** SendMessage.  The ttl is not looked at.  On the direct path the id is
    stored into the message before it is written. *)
Definition SendMessage (s : serverConn) (msg : Message)
    (extra : gmap string string) (ttl : Z) (id : string)
  : serverConn * option error :=
  let '(sz, sendDigest) := shouldDigest s msg in
  if sendDigest then writeDigest s msg extra sz id
  else writeAutoCompress s (withId id msg) sz.

(** cutString.  [rangeIndex] is the loop [for idx, d = range data]: it
    stores the index of every element it visits into [idx], and leaves
    at the first zero byte. *)
Fixpoint rangeIndex (data : list byte) (i idx : Z) : Z :=
  match data with
  | [] => idx
  | d :: rest => if Byte.eqb d x00 then i else rangeIndex rest (i + 1) i
  end.

Definition cutString (data : list byte) : list byte * list byte * option error :=
  let idx := rangeIndex data 0 (-1) in
  if idx <? 0 then ([], [], Some ErrMalformedCommand)
  else (take (Z.to_nat idx) data, drop (Z.to_nat (idx + 1)) data, None).

(** The loop of ProcessCommand that reads the exclusion list off the body
    of a REQUEST_ALL_CACHED command.  Every round shortens [data], so
    [length data] rounds are enough. *)
Fixpoint cutAll (rounds : nat) (data : list byte) (excludes : list string)
  : list string :=
  match rounds with
  | O => excludes
  | S n =>
      if bool_decide (data ≠ []) then
        let '(id, rest, err) := cutString data in
        match err with
        | Some _ => excludes
        | None => cutAll n rest (excludes ++ [string_of_list_byte id])
        end
      else excludes
  end.

Definition parseExcludes (body : list byte) : list string :=
  cutAll (length body) body [].

Definition push {A} (x : A) (ch : list A) : list A := ch ++ [x].

(** ProcessCommand.  The message result is nil on every path. *)
Definition ProcessCommand (s : serverConn) (cmd : option Command)
  : serverConn * option Message * option error :=
  match cmd with
  | None => (s, None, None)
  | Some cmd =>
    match Type_ cmd with
    | CMD_SUBSCRIPTION =>
        match subChan s with
        | None => (s, None, None)
        | Some ch =>
            match Params cmd with
            | [] => (s, None, Some ErrBadPeerImpl)
            | p0 :: _ =>
                match CmdMessage cmd with
                | None => (s, None, Some ErrBadPeerImpl)
                | Some m =>
                    if bool_decide (size (Header m) = 0%nat)
                    then (s, None, Some ErrBadPeerImpl)
                    else
                      let req sub :=
                        mkSubscribeRequest sub (Service s) (Username s) (Header m) in
                      if bool_decide (p0 = "0")
                      then (set_subChan (Some (push (req false) ch)) s, None, None)
                      else if bool_decide (p0 = "1")
                      then (set_subChan (Some (push (req true) ch)) s, None, None)
                      else (s, None, None)
                end
            end
        end
    | CMD_SET_VISIBILITY =>
        match Params cmd with
        | [] => (s, None, Some ErrBadPeerImpl)
        | p0 :: _ =>
            let v := if bool_decide (p0 = "0") then 0
                     else if bool_decide (p0 = "1") then 1 else -1 in
            if 0 <=? v then (set_visible v s, None, None) else (s, None, None)
        end
    | CMD_FWD_REQ =>
        match Params cmd with
        | p0 :: p1 :: more =>
            match fwdChan s with
            | None => (s, None, None)
            | Some ch =>
                let m := match CmdMessage cmd with
                         | None => newMessage
                         | Some m => m
                         end in
                let m := withSender (Username s) (Service s) m in
                let ttl := fst (ParseDuration p0) in
                let rsrv := match more with
                            | p2 :: _ => p2
                            | [] => Service s
                            end in
                let m := withId "" m in
                let fwdreq := mkForwardRequest p1 rsrv ttl m in
                (set_fwdChan (Some (push fwdreq ch)) s, None, None)
            end
        | _ => (s, None, Some ErrBadPeerImpl)
        end
    | CMD_SETTING =>
        match Params cmd with
        | p0 :: p1 :: more =>
            let after_digest :=
              if bool_decide (p0 ≠ "") then
                match GoInt.Atoi p0 with
                | inr _ => inr ErrBadPeerImpl
                | inl d => inl (set_digestThreshold (GoInt.int32 d) s)
                end
              else inl s in
            match after_digest with
            | inr e => (s, None, Some e)
            | inl s1 =>
                let after_compress :=
                  if bool_decide (p1 ≠ "") then
                    match GoInt.Atoi p1 with
                    | inr _ => inr ErrBadPeerImpl
                    | inl c => inl (set_compressThreshold (GoInt.int32 c) s1)
                    end
                  else inl s1 in
                match after_compress with
                | inr e => (s1, None, Some e)
                | inl s2 =>
                    match more with
                    | [] => (s2, None, None)
                    | _ => (set_digestFields more s2, None, None)
                    end
                end
            end
        | _ => (s, None, Some ErrBadPeerImpl)
        end
    | CMD_MSG_RETRIEVE =>
        match Params cmd with
        | [] => (s, None, Some ErrBadPeerImpl)
        | id :: _ =>
            match mcache s with
            | None =>
                let m := withId id newMessage in
                let '(s1, err) := writeAutoCompress s m (Size m) in
                (s1, None, err)
            | Some cache =>
                let '(rmsg, err) := cacheGet cache (Service s) (Username s) id in
                match err with
                | Some e => (s, None, Some e)
                | None =>
                    let rmsg := match rmsg with
                                | None => newMessage
                                | Some m => m
                                end in
                    let rmsg := withId id rmsg in
                    let '(s1, err) := writeAutoCompress s rmsg (Size rmsg) in
                    (s1, None, err)
                end
            end
        end
    | CMD_REQ_ALL_CACHED =>
        match mcache s with
        | None => (s, None, None)
        | Some cache =>
            let excludes :=
              match CmdMessage cmd with
              | Some msg => parseExcludes (Body msg)
              | None => []
              end in
            (* the error of sendAllCachedMessage is not looked at *)
            let '(s1, _) := sendAllCachedMessage cache s excludes in
            (s1, None, None)
        end
    | CMD_DIGEST => (s, None, None)
    end
  end.

End WithSize.

End Server.

(** ** The redis server and the redigo client, as far as the cache uses them *)

Module Redis.

(** A reply as redigo hands it over: nil, a bulk string, a status line, an
    integer, an error reply, or a multi-bulk reply. *)
#[warnings="-register-all"] Inductive reply : Type :=
  | Nil
  | Bulk (data : list byte)
  | Status (line : string)
  | Integer (n : Z)
  | Error (text : string)
  | Multi (replies : list reply).

Inductive command : Type :=
  | GET (key : string)
  | SET (key : string) (data : list byte)
  | SETEX (key : string) (seconds : Z) (data : list byte)
  | DEL (key : string)
  | MULTI
  | EXEC
  | DISCARD.

(** A stored string and the time, if any, at which the server forgets it. *)
Record entry : Type := mkEntry { value : list byte; deadline : option Z }.

Record server : Type := mkServer { db : gmap string entry; clock : Z }.

(** What is reachable under a key: an entry past its deadline is gone. *)
Definition live (σ : server) (key : string) : option (list byte) :=
  match db σ !! key with
  | None => None
  | Some e =>
      match deadline e with
      | None => Some (value e)
      | Some t => if t <=? clock σ then None else Some (value e)
      end
  end.

(** Time passing on the server. *)
Definition elapse (seconds : Z) (σ : server) : server :=
  mkServer (db σ) (clock σ + seconds).

(** One data command, run by the server. *)
Definition run (c : command) (σ : server) : reply * server :=
  match c with
  | GET k =>
      (match live σ k with Some v => Bulk v | None => Nil end, σ)
  | SET k v =>
      (Status "OK", mkServer (<[k := mkEntry v None]> (db σ)) (clock σ))
  | SETEX k secs v =>
      if secs <=? 0 then (Error "ERR invalid expire time in SETEX", σ)
      else (Status "OK",
            mkServer (<[k := mkEntry v (Some (clock σ + secs))]> (db σ)) (clock σ))
  | DEL k =>
      (Integer (match live σ k with Some _ => 1 | None => 0 end),
       mkServer (delete k (db σ)) (clock σ))
  | MULTI | EXEC | DISCARD => (Error "ERR unknown command", σ)
  end.

Fixpoint runAll (cs : list command) (σ : server) : list reply * server :=
  match cs with
  | [] => ([], σ)
  | c :: rest =>
      let '(r, σ1) := run c σ in
      let '(rs, σ2) := runAll rest σ1 in
      (r :: rs, σ2)
  end.

(** One command arriving on a session.  Between MULTI and EXEC a session
    only queues; EXEC runs the queue in one go. *)
Definition serve (c : command) (σ : server) (txn : option (list command))
  : reply * server * option (list command) :=
  match c, txn with
  | MULTI, None => (Status "OK", σ, Some [])
  | MULTI, Some q => (Error "ERR MULTI calls can not be nested", σ, Some q)
  | EXEC, None => (Error "ERR EXEC without MULTI", σ, None)
  | EXEC, Some q => let '(rs, σ1) := runAll q σ in (Multi rs, σ1, None)
  | DISCARD, None => (Error "ERR DISCARD without MULTI", σ, None)
  | DISCARD, Some _ => (Status "OK", σ, None)
  | _, None => let '(r, σ1) := run c σ in (r, σ1, None)
  | _, Some q => (Status "QUEUED", σ, Some (q ++ [c]))
  end.

(** A redigo connection: the server behind it, the transaction state of
    its session, the commands sent but not yet flushed, and the outcome of
    the network operations still to come ([true] is one that fails). *)
Record conn : Type := mkConn {
  backend : server;
  txn : option (list command);
  pending : list command;
  net : list bool
}.

Definition failing (cn : conn) : bool :=
  match net cn with
  | b :: _ => b
  | [] => false
  end.

(** [conn.Send]: the command is buffered. *)
Definition Send (c : command) (cn : conn) : conn * option error :=
  if failing cn
  then (mkConn (backend cn) (txn cn) (pending cn) (tail (net cn)),
        Some (ErrIO "send"))
  else (mkConn (backend cn) (txn cn) (pending cn ++ [c]) (tail (net cn)), None).

Fixpoint serveAll (cs : list command) (σ : server) (t : option (list command))
  : list reply * server * option (list command) :=
  match cs with
  | [] => ([], σ, t)
  | c :: rest =>
      let '(r, σ1, t1) := serve c σ t in
      let '(rs, σ2, t2) := serveAll rest σ1 t1 in
      (r :: rs, σ2, t2)
  end.

Fixpoint firstError (rs : list reply) : option error :=
  match rs with
  | [] => None
  | Error t :: _ => Some (ErrReply t)
  | _ :: rest => firstError rest
  end.

(** [conn.Do]: the command is sent, the buffer is flushed, the replies of
    everything outstanding are read; the last reply is returned, with the
    first error reply, if there was one, as the error. *)
Definition Do (c : command) (cn : conn) : conn * reply * option error :=
  if failing cn
  then (mkConn (backend cn) (txn cn) (pending cn) (tail (net cn)),
        Nil, Some (ErrIO "do"))
  else
    let '(rs, σ1, t1) := serveAll (pending cn ++ [c]) (backend cn) (txn cn) in
    (mkConn σ1 t1 [] (tail (net cn)), List.last rs Nil, firstError rs).

(** [redis.Values] *)
Definition Values (r : reply) (err : option error)
  : list reply * option error :=
  match err with
  | Some e => ([], Some e)
  | None =>
      match r with
      | Multi rs => (rs, None)
      | Nil => ([], Some ErrNil)
      | Error t => ([], Some (ErrReply t))
      | _ => ([], Some ErrUnexpectedType)
      end
  end.

(** [redis.Bytes]: a nil reply is turned into the error [ErrNil]. *)
Definition Bytes (r : reply) (err : option error)
  : list byte * option error :=
  match err with
  | Some e => ([], Some e)
  | None =>
      match r with
      | Bulk data => (data, None)
      | Status line => (list_byte_of_string line, None)
      | Nil => ([], Some ErrNil)
      | Error t => ([], Some (ErrReply t))
      | _ => ([], Some ErrUnexpectedType)
      end
  end.

End Redis.

(** ** Package msgcache: the redis message cache *)

Module MsgCache.
Import Proto.

(** redisMessageCache: a pool of connections and, behind it, the redis
    server.  [network] foretells the network operations still to come. *)
Record redisMessageCache : Type := mkRedisCache {
  server : Redis.server;
  network : list bool
}.

(** [self.pool.Get()] and the deferred [conn.Close()]: every operation works
    on a session of its own. *)
Definition poolGet (self : redisMessageCache) : Redis.conn :=
  Redis.mkConn (server self) None [] (network self).

Definition connClose (cn : Redis.conn) : redisMessageCache :=
  mkRedisCache (Redis.backend cn) (Redis.net cn).

Definition msgKey (service username id : string) : string :=
  "mcache:" +:+ service +:+ ":" +:+ username +:+ ":" +:+ id.

Section WithCodec.

(** [json.Marshal] and [json.Unmarshal] at proto.Message. *)
Variable jsonMarshal : Message → list byte + error.
Variable jsonUnmarshal : list byte → Message + error.

(** [int64(ttl.Seconds())] of a positive duration, a floating point
    computation. *)
Variable wholeSeconds : Z → Z.

Definition msgMarshal (msg : Message) : list byte + error := jsonMarshal msg.

Definition msgUnmarshal (data : list byte) : option Message * option error :=
  match jsonUnmarshal data with
  | inr e => (None, Some e)
  | inl msg => (Some msg, None)
  end.

(** Set; the ttl is a time.Duration, in nanoseconds. *)
Definition Set_ (self : redisMessageCache) (service username id : string)
    (msg : Message) (ttl : Z) : redisMessageCache * option error :=
  let key := msgKey service username id in
  let cn := poolGet self in
  match msgMarshal msg with
  | inr e => (connClose cn, Some e)
  | inl data =>
      let '(cn1, _, err) :=
        if ttl <=? 0 then Redis.Do (Redis.SET key data) cn
        else Redis.Do (Redis.SETEX key (wholeSeconds ttl) data) cn in
      (connClose cn1, err)
  end.

Definition Get (self : redisMessageCache) (service username id : string)
  : redisMessageCache * option Message * option error :=
  let key := msgKey service username id in
  let cn := poolGet self in
  let '(cn1, reply, err) := Redis.Do (Redis.GET key) cn in
  match err with
  | Some e => (connClose cn1, None, Some e)
  | None =>
      let '(data, err) := Redis.Bytes reply None in
      match err with
      | Some e => (connClose cn1, None, Some e)
      | None =>
          let '(msg, err) := msgUnmarshal data in
          (connClose cn1, msg, err)
      end
  end.

Definition Del (self : redisMessageCache) (service username id : string)
  : redisMessageCache * option Message * option error :=
  let key := msgKey service username id in
  let cn := poolGet self in
  let '(cn1, err) := Redis.Send Redis.MULTI cn in
  match err with
  | Some e => (connClose cn1, None, Some e)
  | None =>
  let '(cn2, err) := Redis.Send (Redis.GET key) cn1 in
  match err with
  | Some e =>
      let '(cn3, _, _) := Redis.Do Redis.DISCARD cn2 in
      (connClose cn3, None, Some e)
  | None =>
  let '(cn3, err) := Redis.Send (Redis.DEL key) cn2 in
  match err with
  | Some e =>
      let '(cn4, _, _) := Redis.Do Redis.DISCARD cn3 in
      (connClose cn4, None, Some e)
  | None =>
  let '(cn4, reply, err) := Redis.Do Redis.EXEC cn3 in
  match err with
  | Some e => (connClose cn4, None, Some e)
  | None =>
  let '(bulkReply, err) := Redis.Values reply None in
  match err with
  | Some e => (connClose cn4, None, Some e)
  | None =>
  match bulkReply with
  | [first; _] =>
      let '(data, err) := Redis.Bytes first None in
      match err with
      | Some e => (connClose cn4, None, Some e)
      | None =>
          if bool_decide (data = []) then (connClose cn4, None, None)
          else
            let '(msg, err) := msgUnmarshal data in
            (connClose cn4, msg, err)
      end
  | _ => (connClose cn4, None, None)
  end end end end end end.

End WithCodec.

End MsgCache.

(** ** The helper of the cache tests *)

Module CacheTest.

(** The inner loop of strSetEq: is [s] among [b]? *)
Fixpoint found (s : string) (b : list string) : bool :=
  match b with
  | [] => false
  | t :: rest => if bool_decide (s = t) then true else found s rest
  end.

(** The outer loop of strSetEq. *)
Fixpoint allFound (a b : list string) : bool :=
  match a with
  | [] => true
  | s :: rest => if found s b then allFound rest b else false
  end.

(** strSetEq; the line it prints when the lengths differ is left out. *)
Definition strSetEq (a b : list string) : bool :=
  if bool_decide (length a ≠ length b) then false else allFound a b.

End CacheTest.

(** ** Notions the properties are stated with *)

Module Notions.
Import Proto Server GoInt.

(** The code's notion of a message that comes from the server or from the
    connection's own user: no sender at all, or the connection's user name
    with no service or with the connection's service. *)
Definition ownIdentity (s : serverConn) (msg : Message) : Prop :=
  Sender msg = "" ∨
  (Sender msg = Username s ∧
   (SenderService msg = "" ∨ SenderService msg = Service s)).

(** What a round of the loop over the digest fields leaves under the field:
    the extra map's value, else the header's, else what was there. *)
Definition pick (hdr extra acc : gmap string string) (f : string) : option string :=
  match extra !! f with
  | Some v => Some v
  | None =>
      match hdr !! f with
      | Some v => Some v
      | None => acc !! f
      end
  end.

(** The exclusion list as a client writes it: every id followed by a zero
    byte. *)
Definition encodeIds (ids : list (list byte)) : list byte :=
  concat (map (λ id, id ++ [x00]) ids).

Definition nulFree (l : list byte) : Prop := Forall (λ b, b ≠ x00) l.

(** The frame that sendAllCachedMessage writes for one message of the
    cache: a digest carrying the message's own id and no extra fields, or the
    message itself. *)
Definition frameFor (Size : Message → Z) (s : serverConn) (msg : Message) : Frame :=
  let '(sz, sendDigest) := shouldDigest Size s msg in
  if sendDigest
  then CommandFrame (digestCommand s msg ∅ sz (Id msg)) (shouldCompress s sz)
  else MessageFrame msg (shouldCompress s sz).

(** The messages of a slice that are not nil. *)
Definition present (msgs : list (option Message)) : list Message := omap id msgs.

(** What the settings of a connection always satisfy. *)
Definition settled (s : serverConn) : Prop :=
  in_int32 (digestThreshold s) ∧
  in_int32 (compressThreshold s) ∧
  (visible s = 0 ∨ visible s = 1).

(** Every request in a channel names the connection as its origin. *)
Definition stamped (s : serverConn) (r : ForwardRequest) : Prop :=
  Sender (FwdMessage r) = Username s ∧
  SenderService (FwdMessage r) = Service s ∧
  Id (FwdMessage r) = "".

Definition subscribedAs (s : serverConn) (r : SubscribeRequest) : Prop :=
  SubService r = Service s ∧ SubUsername r = Username s.

(** What ProcessCommand can do to a connection, case by case: nothing, one
    setting, one push into a channel, or writes. *)
Inductive touched (s : serverConn) : serverConn → Prop :=
  | touched_nothing : touched s s
  | touched_visible v : v = 0 ∨ v = 1 → touched s (set_visible v s)
  | touched_digest d c fs :
      (d = digestThreshold s ∨ in_int32 d) →
      (c = compressThreshold s ∨ in_int32 c) →
      touched s (set_digestFields fs
                   (set_compressThreshold c (set_digestThreshold d s)))
  | touched_fwd ch r :
      fwdChan s = Some ch → stamped s r →
      touched s (set_fwdChan (Some (ch ++ [r])) s)
  | touched_sub ch r :
      subChan s = Some ch → subscribedAs s r →
      touched s (set_subChan (Some (ch ++ [r])) s)
  | touched_io s' :
      s' = set_io (wire s') (wfaults s') s → wire s `prefix_of` wire s' →
      touched s s'.

(** A string without a colon. *)
Fixpoint colonFree (x : string) : Prop :=
  match x with
  | EmptyString => True
  | String c r => c ≠ ":"%char ∧ colonFree r
  end.

End Notions.

(** ** Sample data *)

Module Samples.
Import Proto Server MsgCache.

Definition hello : Message :=
  mkMessage "" "" "" {[ "aaa" := "hello"; "aa" := "hell" ]} [x68; x69].

(** A connection of user "usr" of service "srv" with the fresh defaults. *)
Definition conn0 : serverConn := NewConn "srv" "usr".

(** The peer has asked for a digest of everything, [Config(0, 512, ...)]. *)
Definition connDigestAll : serverConn := set_digestThreshold 0 conn0.

(** A size function for a two gigabyte message. *)
Definition twoGiB : Message → Z := λ _, 2147483648.

Definition noDuration : string → Z * option error := λ _, (0, None).

(** A connection whose peer has asked for digests carrying the field
    "digest". *)
Definition connFields : serverConn := set_digestFields ["digest"] connDigestAll.

(** A message of another user, with the field "digest" in its header. *)
Definition fromAlice : Message :=
  mkMessage "" "alice" "srv" {[ "digest" := "new"; "aa" := "hell" ]} [x68; x69].

(** A cache that cannot reach its store, and one that holds nothing. *)
Definition brokenCache : Cache :=
  mkCache (λ _ _ _, (None, Some (ErrIO "dial")))
          (λ _ _ _, ([], Some (ErrIO "dial"))).

Definition emptyCache : Cache :=
  mkCache (λ _ _ _, (None, None)) (λ _ _ _, ([], None)).

(** A stand-in for the JSON codec, good for messages that consist of a body:
    an opening brace and the body. *)
Definition bodyMarshal (m : Message) : list byte + error := inl (x7b :: Body m).

Definition bodyUnmarshal (data : list byte) : Message + error :=
  match data with
  | x7b :: body => inl (mkMessage "" "" "" ∅ body)
  | _ => inr (ErrJSON "unexpected input")
  end.

Definition hi : Message := mkMessage "" "" "" ∅ [x68; x69].

(** A cache in front of a redis server that holds nothing, on a network
    that works. *)
Definition freshCache : redisMessageCache :=
  mkRedisCache (Redis.mkServer ∅ 0) [].

(** The whole seconds of a duration given in nanoseconds. *)
Definition seconds : Z → Z := λ ttl, ttl `quot` 1000000000.

End Samples.

(** * Properties *)

(** ** Conversions *)

Module GoIntProps.
Import GoInt.

Lemma int32_id (x : Z) : in_int32 x → int32 x = x.
Proof.
  unfold in_int32, int32. intros Hx.
  rewrite Z.mod_small by lia. lia.
Qed.

Lemma int32_high (x : Z) : 2 ^ 31 <= x < 2 ^ 32 → int32 x = x - 2 ^ 32.
Proof.
  unfold int32. intros Hx.
  replace (x + 2 ^ 31) with ((x - 2 ^ 31) + 1 * 2 ^ 32) by lia.
  rewrite Z.mod_add by lia.
  rewrite Z.mod_small by lia. lia.
Qed.

Lemma int32_range (x : Z) : in_int32 (int32 x).
Proof.
  unfold in_int32, int32.
  pose proof (Z.mod_pos_bound (x + 2 ^ 31) (2 ^ 32)). lia.
Qed.

End GoIntProps.

(** ** The digest and the compression decision *)

Module DecisionProps.
Import Proto Server GoInt GoIntProps.

Section WithSize.
Variable Size : Message → Z.

(** For a size that fits 32 bits the digest decision is the comparison of
    the threshold with the size. *)
Lemma shouldDigest_in_range (s : serverConn) (msg : Message) :
  in_int32 (Size msg) →
  shouldDigest Size s msg
  = (Size msg, bool_decide (0 <= digestThreshold s ∧ digestThreshold s < Size msg)).
Proof.
  intros Hsz. unfold shouldDigest. rewrite (int32_id _ Hsz). f_equal.
  case_bool_decide as Hd.
  - destruct Hd. apply andb_true_iff. split; [apply Z.leb_le | apply Z.ltb_lt]; lia.
  - apply andb_false_iff.
    destruct (Z.leb_spec 0 (digestThreshold s)); [right | left; done].
    apply Z.ltb_ge. lia.
Qed.

Lemma shouldCompress_in_range (s : serverConn) (sz : Z) :
  in_int32 sz →
  shouldCompress s sz
  = bool_decide (0 < compressThreshold s ∧ compressThreshold s < sz).
Proof.
  intros Hsz. unfold shouldCompress. rewrite (int32_id _ Hsz).
  case_bool_decide as Hd.
  - destruct Hd. apply andb_true_iff. split; apply Z.ltb_lt; lia.
  - apply andb_false_iff.
    destruct (Z.ltb_spec 0 (compressThreshold s)); [right | left; done].
    apply Z.ltb_ge. lia.
Qed.

(** At the threshold a message goes out in full, one byte above it as a
    digest (sizes that fit 32 bits). *)
Lemma shouldDigest_boundary (s : serverConn) (msg msg' : Message) :
  0 <= digestThreshold s →
  Size msg = digestThreshold s →
  Size msg' = digestThreshold s + 1 →
  in_int32 (Size msg') →
  snd (shouldDigest Size s msg) = false ∧ snd (shouldDigest Size s msg') = true.
Proof.
  intros Hd Hm Hm' Hr. unfold in_int32 in Hr.
  rewrite !shouldDigest_in_range by (unfold in_int32; lia). simpl.
  split; [apply bool_decide_eq_false | apply bool_decide_eq_true]; lia.
Qed.

(** C4.  The digest decision compares the threshold with the size narrowed
    to 32 bits.  For a message of 2 GiB up to 4 GiB the narrowed size is
    negative: whatever the threshold (0 <= d, and d < sz holds as d is a 32
    bit number), no digest is sent and SendMessage writes the message itself,
    with the id stored into it. *)
Theorem shouldDigest_narrows_size (s : serverConn) (msg : Message)
    (extra : gmap string string) (ttl : Z) (id : string) :
  0 <= digestThreshold s < 2 ^ 31 →
  2 ^ 31 <= Size msg < 2 ^ 32 →
  (0 <= digestThreshold s ∧ digestThreshold s < Size msg) ∧
  shouldDigest Size s msg = (Size msg, false) ∧
  SendMessage Size s msg extra ttl id
  = WriteMessage (withId id msg) (shouldCompress s (Size msg)) s.
Proof.
  intros Hd Hsz.
  assert (Hno : shouldDigest Size s msg = (Size msg, false)).
  { unfold shouldDigest. rewrite (int32_high _ Hsz). f_equal.
    apply andb_false_iff. right. apply Z.ltb_ge. lia. }
  split; [lia |]. split; [done |].
  unfold SendMessage. rewrite Hno. reflexivity.
Qed.

(** C8.  The compression decision narrows the size in the same way: with a
    positive threshold below a size of 2 GiB up to 4 GiB, neither the full
    message nor the digest is written compressed. *)
Theorem shouldCompress_narrows_size (s : serverConn) (msg : Message)
    (extra : gmap string string) (sz : Z) (id : string) :
  0 < compressThreshold s < 2 ^ 31 →
  2 ^ 31 <= sz < 2 ^ 32 →
  (0 < compressThreshold s ∧ compressThreshold s < sz) ∧
  writeAutoCompress s msg sz = WriteMessage msg false s ∧
  writeDigest s msg extra sz id
  = WriteCommand (digestCommand s msg extra sz id) false s.
Proof.
  intros Hc Hsz.
  assert (Hno : shouldCompress s sz = false).
  { unfold shouldCompress. rewrite (int32_high _ Hsz).
    apply andb_false_iff. right. apply Z.ltb_ge. lia. }
  split; [lia |].
  unfold writeAutoCompress, writeDigest. rewrite Hno. done.
Qed.

End WithSize.

Lemma shouldDigest_narrows_size_witness :
  shouldDigest Samples.twoGiB Samples.connDigestAll Samples.hello
  = (2147483648, false) ∧
  fst (SendMessage Samples.twoGiB Samples.connDigestAll Samples.hello ∅ 0 "id1")
  = set_io [MessageFrame (withId "id1" Samples.hello) false] [] Samples.connDigestAll.
Proof.
  destruct (shouldDigest_narrows_size Samples.twoGiB Samples.connDigestAll
              Samples.hello ∅ 0 "id1") as (_ & H1 & H2).
  - simpl. lia.
  - unfold Samples.twoGiB. lia.
  - split; [exact H1 |]. rewrite H2. reflexivity.
Defined.

Lemma shouldCompress_narrows_size_witness :
  fst (writeAutoCompress Samples.conn0 Samples.hello 2147483648)
  = set_io [MessageFrame Samples.hello false] [] Samples.conn0 ∧
  fst (writeDigest Samples.conn0 Samples.hello ∅ 2147483648 "id1")
  = set_io [CommandFrame (mkCommand CMD_DIGEST ["2147483648"; "id1"] None) false]
           [] Samples.conn0.
Proof.
  destruct (shouldCompress_narrows_size Samples.conn0
              Samples.hello ∅ 2147483648 "id1") as (_ & H1 & H2).
  - simpl. lia.
  - lia.
  - rewrite H1, H2. split; reflexivity.
Defined.

End DecisionProps.

(** ** Digest construction *)

Module DigestProps.
Import Proto Server GoInt Notions.

Lemma fromServer_spec (s : serverConn) (msg : Message) :
  fromServer s msg = true ↔ ownIdentity s msg.
Proof.
  unfold fromServer, ownIdentity.
  repeat case_bool_decide; split; intros Hown; try done; tauto.
Qed.

Lemma nonempty_of_lookup (m : gmap string string) (f v : string) :
  m !! f = Some v → size m ≠ 0%nat.
Proof.
  intros Hl Hz. apply map_size_empty_iff in Hz. subst m.
  rewrite lookup_empty in Hl. discriminate.
Qed.

Lemma round_same (hdr extra acc : gmap string string) (g : string) :
  digestRound hdr extra acc g !! g = pick hdr extra acc g.
Proof.
  unfold digestRound, pick.
  destruct (extra !! g) as [ve |] eqn:He.
  - rewrite (bool_decide_eq_true_2 (size extra ≠ 0%nat))
      by eauto using nonempty_of_lookup.
    apply lookup_insert_eq.
  - assert (Hinner :
      (if bool_decide (size hdr ≠ 0%nat)
       then match hdr !! g with Some v => <[g:=v]> acc | None => acc end
       else acc) !! g
      = match hdr !! g with Some v => Some v | None => acc !! g end).
    { destruct (hdr !! g) as [vh |] eqn:Hh.
      - rewrite bool_decide_eq_true_2 by eauto using nonempty_of_lookup.
        apply lookup_insert_eq.
      - by destruct (bool_decide (size hdr ≠ 0%nat)). }
    by destruct (bool_decide (size extra ≠ 0%nat)).
Qed.

Lemma round_other (hdr extra acc : gmap string string) (g k : string) :
  k ≠ g → digestRound hdr extra acc g !! k = acc !! k.
Proof.
  intros Hk. unfold digestRound.
  assert (Hinner :
    (if bool_decide (size hdr ≠ 0%nat)
     then match hdr !! g with Some v => <[g:=v]> acc | None => acc end
     else acc) !! k = acc !! k).
  { destruct (bool_decide (size hdr ≠ 0%nat)); [| done].
    destruct (hdr !! g); [| done]. by rewrite lookup_insert_ne. }
  destruct (bool_decide (size extra ≠ 0%nat)); [| done].
  destruct (extra !! g); [| done]. by rewrite lookup_insert_ne.
Qed.

Lemma digestHeader_cons (g : string) (rest : list string)
    (hdr extra acc : gmap string string) :
  digestHeader (g :: rest) hdr extra acc
  = digestHeader rest hdr extra (digestRound hdr extra acc g).
Proof. reflexivity. Qed.

Lemma pick_idem (hdr extra acc : gmap string string) (g : string) :
  pick hdr extra (digestRound hdr extra acc g) g = pick hdr extra acc g.
Proof.
  unfold pick at 1. rewrite round_same. unfold pick.
  destruct (extra !! g); [done |]. by destruct (hdr !! g).
Qed.

Lemma digestHeader_lookup (fields : list string) (hdr extra : gmap string string) :
  ∀ (acc : gmap string string) (f : string),
    digestHeader fields hdr extra acc !! f
    = if bool_decide (f ∈ fields) then pick hdr extra acc f else acc !! f.
Proof.
  induction fields as [| g rest IH]; intros acc f.
  - cbn [digestHeader].
    rewrite bool_decide_eq_false_2; [done | apply not_elem_of_nil].
  - rewrite digestHeader_cons, IH. clear IH.
    destruct (decide (f = g)) as [-> | Hne].
    + rewrite (bool_decide_eq_true_2 (g ∈ g :: rest)) by apply list_elem_of_here.
      rewrite pick_idem, round_same. by destruct (bool_decide (g ∈ rest)).
    + assert (Hp : pick hdr extra (digestRound hdr extra acc g) f = pick hdr extra acc f).
      { unfold pick. by rewrite round_other. }
      rewrite Hp, round_other by done.
      destruct (decide (f ∈ rest)) as [Hin | Hout].
      * rewrite !bool_decide_eq_true_2; [done | by apply list_elem_of_further | done].
      * rewrite !bool_decide_eq_false_2; [done | | done].
        intros [? | ?]%elem_of_cons; done.
Qed.

Lemma digestHeader_empty (fields : list string) (hdr extra : gmap string string) :
  (∀ f, f ∈ fields → hdr !! f = None ∧ extra !! f = None) →
  digestHeader fields hdr extra ∅ = ∅.
Proof.
  intros Hnone. apply map_eq. intros f.
  rewrite digestHeader_lookup, lookup_empty.
  case_bool_decide as Hin; [| done].
  destruct (Hnone f Hin) as [Hh He]. unfold pick. by rewrite He, Hh.
Qed.

(** A successful write puts exactly the frame on the wire. *)
Lemma writeFrame_ok (f : Frame) (s s' : serverConn) :
  writeFrame f s = (s', None) → wire s' = wire s ++ [f].
Proof.
  unfold writeFrame. destruct (wfaults s) as [| [e |] later]; intros [= <-]; done.
Qed.

(** C6.  The digest that writeDigest writes carries the size and the id as
    its first two parameters; the sender's name and service follow, as two
    more parameters, exactly when the message does not come from the server
    or the connection's own user; and when no configured digest field occurs
    in the header or in the extra map, no message is attached. *)
Theorem writeDigest_command (s s' : serverConn) (msg : Message)
    (extra : gmap string string) (sz : Z) (id : string) :
  writeDigest s msg extra sz id = (s', None) →
  ∃ (d : Command) (compress : bool),
    wire s' = wire s ++ [CommandFrame d compress] ∧
    Type_ d = CMD_DIGEST ∧
    take 2 (Params d) = [Sprintf_v sz; id] ∧
    (drop 2 (Params d) = [Sender msg; SenderService msg] ↔ ¬ ownIdentity s msg) ∧
    (drop 2 (Params d) = [] ↔ ownIdentity s msg) ∧
    ((∀ f, f ∈ digestFields s → Header msg !! f = None ∧ extra !! f = None) →
     CmdMessage d = None).
Proof.
  intros Hw. apply writeFrame_ok in Hw.
  exists (digestCommand s msg extra sz id), (shouldCompress s sz).
  split; [exact Hw |]. split; [done |].
  pose proof (fromServer_spec s msg) as Hown.
  unfold digestCommand. simpl.
  destruct (fromServer s msg) eqn:Hfs; simpl.
  - assert (ownIdentity s msg) by by apply Hown.
    repeat split; try done; try tauto.
    intros Hnone. by rewrite digestHeader_empty.
  - assert (¬ ownIdentity s msg) by (intros ?%Hown; done).
    repeat split; try done; try tauto.
    intros Hnone. by rewrite digestHeader_empty.
Qed.

(** C9.  A digest field that occurs both in the message's header and in the
    extra map is carried with the value of the extra map. *)
Theorem writeDigest_extra_overrides_header (s s' : serverConn) (msg : Message)
    (extra : gmap string string) (sz : Z) (id f vh ve : string) :
  writeDigest s msg extra sz id = (s', None) →
  f ∈ digestFields s →
  Header msg !! f = Some vh →
  extra !! f = Some ve →
  ∃ (d : Command) (compress : bool) (aux : Message),
    wire s' = wire s ++ [CommandFrame d compress] ∧
    CmdMessage d = Some aux ∧
    Header aux !! f = Some ve.
Proof.
  intros Hw Hin Hh He. apply writeFrame_ok in Hw.
  set (header := digestHeader (digestFields s) (Header msg) extra ∅).
  assert (Hf : header !! f = Some ve).
  { unfold header. rewrite digestHeader_lookup, bool_decide_eq_true_2 by done.
    unfold pick. by rewrite He. }
  exists (digestCommand s msg extra sz id), (shouldCompress s sz),
         (mkMessage "" "" "" header []).
  split; [exact Hw |]. split; [| exact Hf].
  unfold digestCommand. simpl. fold header.
  rewrite bool_decide_eq_true_2 by eauto using nonempty_of_lookup. done.
Qed.

Lemma writeDigest_command_witness :
  ∃ (d : Command) (compress : bool),
    wire (fst (writeDigest Samples.connFields Samples.fromAlice ∅ 10 "id1"))
    = wire Samples.connFields ++ [CommandFrame d compress] ∧
    Type_ d = CMD_DIGEST ∧
    take 2 (Params d) = ["10"; "id1"] ∧
    (drop 2 (Params d) = ["alice"; "srv"]
     ↔ ¬ ownIdentity Samples.connFields Samples.fromAlice) ∧
    (drop 2 (Params d) = [] ↔ ownIdentity Samples.connFields Samples.fromAlice) ∧
    ((∀ f, f ∈ ["digest"] →
           Header Samples.fromAlice !! f = None ∧ (∅ : gmap string string) !! f = None) →
     CmdMessage d = None).
Proof.
  apply (writeDigest_command Samples.connFields
           (fst (writeDigest Samples.connFields Samples.fromAlice ∅ 10 "id1"))
           Samples.fromAlice ∅ 10 "id1").
  reflexivity.
Defined.

Lemma writeDigest_extra_overrides_header_witness :
  ∃ (d : Command) (compress : bool) (aux : Message),
    wire (fst (writeDigest Samples.connFields Samples.fromAlice
                 {[ "digest" := "extra" ]} 10 "id1"))
    = wire Samples.connFields ++ [CommandFrame d compress] ∧
    CmdMessage d = Some aux ∧
    Header aux !! "digest" = Some "extra".
Proof.
  apply (writeDigest_extra_overrides_header Samples.connFields
           (fst (writeDigest Samples.connFields Samples.fromAlice
                   {[ "digest" := "extra" ]} 10 "id1"))
           Samples.fromAlice {[ "digest" := "extra" ]} 10 "id1" "digest" "new" "extra").
  - reflexivity.
  - apply list_elem_of_here.
  - reflexivity.
  - reflexivity.
Defined.

End DigestProps.

(** ** The exclusion list of REQUEST_ALL_CACHED *)

Module ExcludeProps.
Import Proto Server Notions.

Lemma rangeIndex_found (pre rest : list byte) :
  nulFree pre →
  ∀ i idx, rangeIndex (pre ++ x00 :: rest) i idx = i + Z.of_nat (length pre).
Proof.
  induction 1 as [| b pre Hb _ IH]; intros i idx; simpl.
  - lia.
  - destruct (Byte.eqb b x00) eqn:Hz.
    + apply Byte.byte_dec_bl in Hz. contradiction.
    + rewrite IH. lia.
Qed.

(** Without a zero byte the loop runs to the end, and [idx] is left at the
    index of the last element: it is negative for empty data only. *)
Lemma rangeIndex_missing (data : list byte) :
  nulFree data →
  ∀ i idx, rangeIndex data i idx
           = match data with [] => idx | _ => i + Z.of_nat (length data) - 1 end.
Proof.
  induction 1 as [| b rest Hb _ IH]; intros i idx; simpl.
  - done.
  - destruct (Byte.eqb b x00) eqn:Hz.
    + apply Byte.byte_dec_bl in Hz. contradiction.
    + rewrite IH. destruct rest; simpl length; lia.
Qed.

Lemma rangeIndex_bounds (data : list byte) :
  data ≠ [] →
  ∀ i idx, i <= rangeIndex data i idx < i + Z.of_nat (length data).
Proof.
  induction data as [| b rest IH]; intros Hne i idx; [done |]. simpl.
  destruct (Byte.eqb b x00); [lia |].
  destruct rest as [| c rest'].
  - simpl. lia.
  - specialize (IH ltac:(done) (i + 1) i). simpl length in *. lia.
Qed.

(** On data that is not empty cutString has no error to report. *)
Lemma cutString_no_error (data : list byte) :
  data ≠ [] → snd (cutString data) = None.
Proof.
  intros Hne. unfold cutString.
  pose proof (rangeIndex_bounds data Hne 0 (-1)) as Hb.
  destruct (Z.ltb_spec (rangeIndex data 0 (-1)) 0); [lia | done].
Qed.

Lemma cutString_shrinks (data : list byte) :
  data ≠ [] → (length (snd (fst (cutString data))) < length data)%nat.
Proof.
  intros Hne. unfold cutString.
  pose proof (rangeIndex_bounds data Hne 0 (-1)) as Hb.
  destruct (Z.ltb_spec (rangeIndex data 0 (-1)) 0); [lia |]. simpl.
  rewrite length_drop. lia.
Qed.

Lemma cutString_terminated (pre rest : list byte) :
  nulFree pre → cutString (pre ++ x00 :: rest) = (pre, rest, None).
Proof.
  intros Hpre. unfold cutString. rewrite rangeIndex_found by done.
  destruct (Z.ltb_spec (0 + Z.of_nat (length pre)) 0); [lia |].
  replace (Z.to_nat (0 + Z.of_nat (length pre))) with (length pre) by lia.
  replace (Z.to_nat (0 + Z.of_nat (length pre) + 1)) with (S (length pre)) by lia.
  rewrite take_app_length.
  rewrite (cons_middle x00 pre rest), app_assoc.
  rewrite drop_app_length'; [done |]. rewrite length_app. simpl. lia.
Qed.

(** An entry with no zero byte after it is not refused: its last byte is
    taken for the separator. *)
Lemma cutString_unterminated (data : list byte) :
  nulFree data → data ≠ [] → cutString data = (removelast data, [], None).
Proof.
  intros Hfree Hne. unfold cutString. rewrite rangeIndex_missing by done.
  assert (Hlen : (0 < length data)%nat) by (destruct data; [done | simpl; lia]).
  replace (match data with [] => -1 | _ => 0 + Z.of_nat (length data) - 1 end)
    with (Z.of_nat (length data) - 1) by (destruct data; [done | lia]).
  destruct (Z.ltb_spec (Z.of_nat (length data) - 1) 0); [lia |].
  replace (Z.to_nat (Z.of_nat (length data) - 1))
    with (Init.Nat.pred (length data)) by lia.
  replace (Z.to_nat (Z.of_nat (length data) - 1 + 1)) with (length data) by lia.
  by rewrite drop_all, removelast_firstn_len.
Qed.

Lemma cutAll_entries (ids : list (list byte)) (tail : list byte) :
  Forall nulFree ids → nulFree tail →
  ∀ (rounds : nat) (excludes : list string),
    (length (encodeIds ids ++ tail) ≤ rounds)%nat →
    cutAll rounds (encodeIds ids ++ tail) excludes
    = excludes ++ map string_of_list_byte ids
      ++ match tail with
         | [] => []
         | _ => [string_of_list_byte (removelast tail)]
         end.
Proof.
  intros Hids Htail. induction Hids as [| id ids Hid _ IH]; intros rounds excludes Hr.
  - unfold encodeIds in *. simpl in *.
    destruct tail as [| b t] eqn:Ht.
    + rewrite app_nil_r. by destruct rounds.
    + rewrite <- Ht in *. assert (tail ≠ []) by (subst; done).
      destruct rounds as [| n]; [subst; simpl in Hr; lia |].
      simpl. rewrite bool_decide_eq_true_2 by done.
      rewrite cutString_unterminated by done.
      by destruct n.
  - unfold encodeIds in *. simpl in *.
    rewrite <- !app_assoc in *. simpl in *.
    destruct rounds as [| n].
    { rewrite length_app in Hr. simpl in Hr. lia. }
    simpl. rewrite bool_decide_eq_true_2 by (by destruct id).
    rewrite cutString_terminated by done.
    rewrite IH.
    + by rewrite <- app_assoc.
    + rewrite length_app in Hr. simpl in Hr. lia.
Qed.

(** A list in which every id is followed by its zero byte is read back as
    it was written. *)
Lemma parseExcludes_encodeIds (ids : list (list byte)) :
  Forall nulFree ids →
  parseExcludes (encodeIds ids) = map string_of_list_byte ids.
Proof.
  intros Hids. unfold parseExcludes.
  pose proof (cutAll_entries ids [] Hids ltac:(constructor)) as H.
  rewrite app_nil_r in H. rewrite H by done. simpl. by rewrite app_nil_r.
Qed.

Section WithSize.
Variable Size : Message → Z.
Variable ParseDuration : string → Z * option error.

(** C7.  When the body ends in an entry that has no zero byte after it, the
    entries before it are excluded, parsing ends, no error is raised; but the
    unterminated entry is not dropped: cutString takes its last byte for the
    separator, and the rest of it is excluded as one more id. *)
Theorem parseExcludes_unterminated (s : serverConn) (cache : Cache)
    (cmd : Command) (msg : Message) (ids : list (list byte)) (tail : list byte) :
  Forall nulFree ids → nulFree tail → tail ≠ [] →
  Type_ cmd = CMD_REQ_ALL_CACHED →
  CmdMessage cmd = Some msg →
  Body msg = encodeIds ids ++ tail →
  mcache s = Some cache →
  parseExcludes (Body msg)
  = map string_of_list_byte ids ++ [string_of_list_byte (removelast tail)] ∧
  ProcessCommand Size ParseDuration s (Some cmd)
  = (fst (sendAllCachedMessage Size cache s
            (map string_of_list_byte ids ++ [string_of_list_byte (removelast tail)])),
     None, None).
Proof.
  intros Hids Htail Hne Hty Hmsg Hbody Hcache.
  assert (Hparse : parseExcludes (Body msg)
    = map string_of_list_byte ids ++ [string_of_list_byte (removelast tail)]).
  { unfold parseExcludes. rewrite Hbody.
    rewrite (cutAll_entries ids tail Hids Htail) by done.
    destruct tail; done. }
  split; [exact Hparse |].
  unfold ProcessCommand. rewrite Hty, Hcache, Hmsg, Hparse.
  by destruct (sendAllCachedMessage _ _ _ _).
Qed.

End WithSize.

Lemma parseExcludes_unterminated_witness :
  parseExcludes [x61; x00; x62; x63] = ["a"; "b"] ∧
  ProcessCommand Samples.twoGiB Samples.noDuration
    (SetMessageCache (Some Samples.emptyCache) Samples.conn0)
    (Some (mkCommand CMD_REQ_ALL_CACHED []
             (Some (mkMessage "" "" "" ∅ [x61; x00; x62; x63]))))
  = (SetMessageCache (Some Samples.emptyCache) Samples.conn0, None, None).
Proof.
  apply (parseExcludes_unterminated Samples.twoGiB Samples.noDuration
           (SetMessageCache (Some Samples.emptyCache) Samples.conn0)
           Samples.emptyCache
           (mkCommand CMD_REQ_ALL_CACHED []
              (Some (mkMessage "" "" "" ∅ [x61; x00; x62; x63])))
           (mkMessage "" "" "" ∅ [x61; x00; x62; x63])
           [[x61]] [x62; x63]).
  - repeat constructor; discriminate.
  - repeat constructor; discriminate.
  - discriminate.
  - reflexivity.
  - reflexivity.
  - reflexivity.
  - reflexivity.
Defined.

End ExcludeProps.

(** ** Command dispatch *)

Module DispatchProps.
Import Proto Server GoInt GoIntProps.

Section WithSize.
Variable Size : Message → Z.
Variable ParseDuration : string → Z * option error.

(** C3.  ProcessCommand has no error to return for a REQUEST_ALL_CACHED
    command: whatever sendAllCachedMessage reports, a failed lookup in the
    cache or a failed write, is left behind. *)
Theorem request_all_cached_drops_error (s : serverConn) (cmd : Command)
    (cache : Cache) :
  Type_ cmd = CMD_REQ_ALL_CACHED →
  mcache s = Some cache →
  snd (ProcessCommand Size ParseDuration s (Some cmd)) = None.
Proof.
  intros Hty Hcache. unfold ProcessCommand. rewrite Hty, Hcache.
  by destruct (sendAllCachedMessage _ _ _ _).
Qed.

(** C5.  The request that a FORWARD_REQUEST command puts into the forward
    channel: the message is the command's (a fresh one if it has none), with
    the connection's user and service as its sender and no id; the receiver
    is the second parameter; the receiver's service is the third parameter,
    or the connection's own service when there is none. *)
Theorem forward_request_stamps_identity (s : serverConn) (cmd : Command)
    (ch : list ForwardRequest) :
  Type_ cmd = CMD_FWD_REQ →
  (2 ≤ length (Params cmd))%nat →
  fwdChan s = Some ch →
  ∃ req : ForwardRequest,
    ProcessCommand Size ParseDuration s (Some cmd) = (set_fwdChan (Some (ch ++ [req])) s, None, None) ∧
    Sender (FwdMessage req) = Username s ∧
    SenderService (FwdMessage req) = Service s ∧
    Id (FwdMessage req) = "" ∧
    EqContent (FwdMessage req) (default newMessage (CmdMessage cmd)) ∧
    Some (Receiver req) = Params cmd !! 1%nat ∧
    ReceiverService req = default (Service s) (Params cmd !! 2%nat).
Proof.
  intros Hty Hlen Hch.
  destruct (Params cmd) as [| p0 [| p1 more]] eqn:Hp; simpl in Hlen; try lia.
  unfold ProcessCommand. rewrite Hty, Hp, Hch.
  eexists. split; [reflexivity |]. simpl.
  split; [done |]. split; [done |]. split; [done |].
  split; [by destruct (CmdMessage cmd) |].
  split; [done |]. by destruct more.
Qed.

Lemma Atoi_nonempty (p : string) (d : Z) : Atoi p = inl d → p ≠ "".
Proof. intros H ->. discriminate. Qed.

(** C10.  A SETTING command whose first parameter is a number that fits 32
    bits and whose second parameter is there but is no number: the command is
    refused with ErrBadPeerImpl, and yet the digest threshold has taken the
    first parameter's value; the compress threshold and the digest fields
    are as they were. *)
Theorem setting_not_atomic (s : serverConn) (cmd : Command)
    (p0 p1 : string) (more : list string) (d : Z) (e : error) :
  Type_ cmd = CMD_SETTING →
  Params cmd = p0 :: p1 :: more →
  Atoi p0 = inl d →
  in_int32 d →
  p1 ≠ "" →
  Atoi p1 = inr e →
  ∃ s' : serverConn,
    ProcessCommand Size ParseDuration s (Some cmd) = (s', None, Some ErrBadPeerImpl) ∧
    digestThreshold s' = d ∧
    compressThreshold s' = compressThreshold s ∧
    digestFields s' = digestFields s.
Proof.
  intros Hty Hp H0 Hd Hne H1.
  unfold ProcessCommand. rewrite Hty, Hp.
  rewrite (bool_decide_eq_true_2 (p0 ≠ "")) by eauto using Atoi_nonempty.
  rewrite H0, (bool_decide_eq_true_2 (p1 ≠ "")) by done. rewrite H1.
  eexists. split; [reflexivity |]. simpl.
  by rewrite int32_id.
Qed.

(** The same without the bound on the first parameter: what the threshold
    takes is the value narrowed to 32 bits. *)
Lemma setting_stores_narrowed (s : serverConn) (cmd : Command)
    (p0 p1 : string) (more : list string) (d : Z) (e : error) :
  Type_ cmd = CMD_SETTING →
  Params cmd = p0 :: p1 :: more →
  Atoi p0 = inl d →
  p1 ≠ "" →
  Atoi p1 = inr e →
  ProcessCommand Size ParseDuration s (Some cmd)
  = (set_digestThreshold (int32 d) s, None, Some ErrBadPeerImpl).
Proof.
  intros Hty Hp H0 Hne H1.
  unfold ProcessCommand. rewrite Hty, Hp.
  rewrite (bool_decide_eq_true_2 (p0 ≠ "")) by eauto using Atoi_nonempty.
  rewrite H0, (bool_decide_eq_true_2 (p1 ≠ "")) by done. by rewrite H1.
Qed.

End WithSize.

Lemma request_all_cached_drops_error_witness :
  sendAllCachedMessage Samples.twoGiB Samples.brokenCache
    (SetMessageCache (Some Samples.brokenCache) Samples.conn0) []
  = (SetMessageCache (Some Samples.brokenCache) Samples.conn0, Some (ErrIO "dial")) ∧
  snd (ProcessCommand Samples.twoGiB Samples.noDuration
         (SetMessageCache (Some Samples.brokenCache) Samples.conn0)
         (Some (mkCommand CMD_REQ_ALL_CACHED [] None)))
  = None.
Proof.
  split; [reflexivity |].
  apply (request_all_cached_drops_error Samples.twoGiB Samples.noDuration
           (SetMessageCache (Some Samples.brokenCache) Samples.conn0)
           (mkCommand CMD_REQ_ALL_CACHED [] None) Samples.brokenCache);
    reflexivity.
Defined.

Lemma forward_request_stamps_identity_witness :
  ∃ req : ForwardRequest,
    ProcessCommand Samples.twoGiB Samples.noDuration
      (SetForwardRequestChannel (Some []) Samples.conn0)
      (Some (mkCommand CMD_FWD_REQ ["24h"; "random"] (Some Samples.fromAlice)))
    = (set_fwdChan (Some ([] ++ [req]))
         (SetForwardRequestChannel (Some []) Samples.conn0), None, None) ∧
    Sender (FwdMessage req) = "usr" ∧
    SenderService (FwdMessage req) = "srv" ∧
    Id (FwdMessage req) = "" ∧
    EqContent (FwdMessage req) Samples.fromAlice ∧
    Some (Receiver req) = Some "random" ∧
    ReceiverService req = "srv".
Proof.
  apply (forward_request_stamps_identity Samples.twoGiB Samples.noDuration
           (SetForwardRequestChannel (Some []) Samples.conn0)
           (mkCommand CMD_FWD_REQ ["24h"; "random"] (Some Samples.fromAlice)) []).
  - reflexivity.
  - simpl. lia.
  - reflexivity.
Defined.

Lemma setting_not_atomic_witness :
  ∃ s' : serverConn,
    ProcessCommand Samples.twoGiB Samples.noDuration Samples.conn0
      (Some (mkCommand CMD_SETTING ["1024"; "x"; "digest"] None))
    = (s', None, Some ErrBadPeerImpl) ∧
    digestThreshold s' = 1024 ∧
    compressThreshold s' = 512 ∧
    digestFields s' = [].
Proof.
  apply (setting_not_atomic Samples.twoGiB Samples.noDuration Samples.conn0
           (mkCommand CMD_SETTING ["1024"; "x"; "digest"] None)
           "1024" "x" ["digest"] 1024 ErrSyntax).
  - reflexivity.
  - reflexivity.
  - reflexivity.
  - unfold in_int32. lia.
  - discriminate.
  - reflexivity.
Defined.

(** First parameters that are decimal integers and do not become the digest
    threshold.  4294967296 is beyond 32 bits: the threshold is left at 0.
    99999999999999999999 is beyond an int: Atoi refuses it, and the threshold
    stays what it was, -1. *)
Lemma setting_threshold_counterexample :
  (digits "4294967296" 0 = Some 4294967296 ∧
   Atoi "x" = inr ErrSyntax ∧
   ∃ s' : serverConn,
     ProcessCommand Samples.twoGiB Samples.noDuration Samples.conn0
       (Some (mkCommand CMD_SETTING ["4294967296"; "x"] None))
     = (s', None, Some ErrBadPeerImpl) ∧
     digestThreshold s' = 0 ∧
     digestThreshold s' ≠ 4294967296) ∧
  (digits "99999999999999999999" 0 = Some 99999999999999999999 ∧
   Atoi "x" = inr ErrSyntax ∧
   ∃ s' : serverConn,
     ProcessCommand Samples.twoGiB Samples.noDuration Samples.conn0
       (Some (mkCommand CMD_SETTING ["99999999999999999999"; "x"] None))
     = (s', None, Some ErrBadPeerImpl) ∧
     digestThreshold s' = -1 ∧
     digestThreshold s' ≠ 99999999999999999999).
Proof.
  split.
  - split; [reflexivity |]. split; [reflexivity |].
    eexists. split; [reflexivity |]. split; [reflexivity | discriminate].
  - split; [reflexivity |]. split; [reflexivity |].
    eexists. split; [reflexivity |]. split; [reflexivity | discriminate].
Qed.

End DispatchProps.

(** ** The redis message cache *)

Module CacheProps.
Import Proto MsgCache.

(** Between MULTI and EXEC a session leaves the server as it is. *)
Lemma serve_queued (c : Redis.command) (σ : Redis.server) (q : list Redis.command) :
  c ≠ Redis.EXEC → snd (fst (Redis.serve c σ (Some q))) = σ.
Proof. destruct c; done. Qed.

Section WithCodec.
Variable jsonMarshal : Message → list byte + error.
Variable jsonUnmarshal : list byte → Message + error.
Variable wholeSeconds : Z → Z.

Lemma Set_healthy (σ : Redis.server) (service username id : string)
    (msg : Message) (ttl : Z) (data : list byte) :
  ttl <= 0 →
  jsonMarshal msg = inl data →
  Set_ jsonMarshal wholeSeconds (mkRedisCache σ []) service username id msg ttl
  = (mkRedisCache (Redis.mkServer
                (<[msgKey service username id := Redis.mkEntry data None]> (Redis.db σ))
                (Redis.clock σ)) [],
     None).
Proof.
  intros Httl Hm. unfold Set_, msgMarshal. rewrite Hm.
  destruct (Z.leb_spec ttl 0); [| lia]. reflexivity.
Qed.

(** What Get answers on a network that works. *)
Lemma Get_healthy (σ : Redis.server) (service username id : string) :
  Get jsonUnmarshal (mkRedisCache σ []) service username id
  = match Redis.live σ (msgKey service username id) with
    | None => (mkRedisCache σ [], None, Some ErrNil)
    | Some data =>
        (mkRedisCache σ [], fst (msgUnmarshal jsonUnmarshal data),
         snd (msgUnmarshal jsonUnmarshal data))
    end.
Proof.
  unfold Get, poolGet, Redis.Do, Redis.failing. simpl.
  destruct (Redis.live σ (msgKey service username id)) as [data |]; simpl.
  - destruct σ. by destruct (msgUnmarshal jsonUnmarshal data).
  - by destruct σ.
Qed.

(** What Del answers on a network that works.  The answer is read from,
    and the entry is deleted from, one and the same state of the server:
    the one in which EXEC finds it. *)
Lemma Del_healthy (σ : Redis.server) (service username id : string) :
  Del jsonUnmarshal (mkRedisCache σ []) service username id
  = let key := msgKey service username id in
    let after := mkRedisCache (Redis.mkServer (delete key (Redis.db σ)) (Redis.clock σ)) [] in
    match Redis.live σ key with
    | None => (after, None, Some ErrNil)
    | Some data =>
        if bool_decide (data = []) then (after, None, None)
        else (after, fst (msgUnmarshal jsonUnmarshal data),
              snd (msgUnmarshal jsonUnmarshal data))
    end.
Proof.
  unfold Del, poolGet, Redis.Send, Redis.Do, Redis.failing. simpl.
  destruct (Redis.live σ (msgKey service username id)) as [data |]; simpl.
  - case_bool_decide; [done |].
    by destruct (msgUnmarshal jsonUnmarshal data).
  - done.
Qed.

Lemma live_deleted (σ : Redis.server) (key : string) :
  Redis.live (Redis.mkServer (delete key (Redis.db σ)) (Redis.clock σ)) key = None.
Proof. unfold Redis.live. simpl. by rewrite lookup_delete_eq. Qed.

Lemma live_stored (σ : Redis.server) (key : string) (data : list byte) :
  Redis.live (Redis.mkServer (<[key := Redis.mkEntry data None]> (Redis.db σ))
                (Redis.clock σ)) key = Some data.
Proof. unfold Redis.live. simpl. by rewrite lookup_insert_eq. Qed.

(** C2.  With no live entry under the key, Get and Del both answer a nil
    message together with the error ErrNil: redis answers GET with a nil
    reply, and redis.Bytes turns a nil reply into that error. *)
Theorem absent_entry_is_an_error (self : redisMessageCache)
    (service username id : string) :
  network self = [] →
  Redis.live (server self) (msgKey service username id) = None →
  snd (Get jsonUnmarshal self service username id) = Some ErrNil ∧
  snd (fst (Get jsonUnmarshal self service username id)) = None ∧
  snd (Del jsonUnmarshal self service username id) = Some ErrNil ∧
  snd (fst (Del jsonUnmarshal self service username id)) = None.
Proof.
  destruct self as [σ net]. simpl. intros -> Hlive.
  rewrite Get_healthy, Del_healthy. simpl. rewrite Hlive. done.
Qed.

(** C1.  A message stored with a ttl that is not positive: the first Del
    answers what the codec reads from the stored bytes, and the entry is
    gone; the second Del answers a nil message, and with it the error
    ErrNil. *)
Theorem Del_twice_after_Set (self : redisMessageCache)
    (service username id : string) (msg msg' : Message) (ttl : Z)
    (data : list byte) :
  network self = [] →
  ttl <= 0 →
  jsonMarshal msg = inl data →
  data ≠ [] →
  jsonUnmarshal data = inl msg' →
  ∃ s1 s2 s3 : redisMessageCache,
    Set_ jsonMarshal wholeSeconds self service username id msg ttl = (s1, None) ∧
    Del jsonUnmarshal s1 service username id = (s2, Some msg', None) ∧
    Redis.live (server s2) (msgKey service username id) = None ∧
    Del jsonUnmarshal s2 service username id = (s3, None, Some ErrNil).
Proof.
  destruct self as [σ net]. simpl. intros -> Httl Hm Hdata Hu.
  eexists _, _, _.
  split; [by apply Set_healthy |].
  split.
  { rewrite Del_healthy. cbv zeta. rewrite live_stored.
    rewrite bool_decide_eq_false_2 by done.
    unfold msgUnmarshal. rewrite Hu. reflexivity. }
  split; [apply live_deleted |].
  rewrite Del_healthy. cbv zeta. rewrite live_deleted. reflexivity.
Qed.

End WithCodec.

Lemma absent_entry_is_an_error_witness :
  snd (Get Samples.bodyUnmarshal Samples.freshCache "srv" "usr"
         "wont-be-a-good-message-id") = Some ErrNil ∧
  snd (fst (Get Samples.bodyUnmarshal Samples.freshCache "srv" "usr"
              "wont-be-a-good-message-id")) = None ∧
  snd (Del Samples.bodyUnmarshal Samples.freshCache "srv" "usr"
         "wont-be-a-good-message-id") = Some ErrNil ∧
  snd (fst (Del Samples.bodyUnmarshal Samples.freshCache "srv" "usr"
              "wont-be-a-good-message-id")) = None.
Proof.
  apply (absent_entry_is_an_error Samples.bodyUnmarshal Samples.freshCache
           "srv" "usr" "wont-be-a-good-message-id").
  - reflexivity.
  - reflexivity.
Defined.

Lemma Del_twice_after_Set_witness :
  ∃ s1 s2 s3 : redisMessageCache,
    Set_ Samples.bodyMarshal (λ ttl, ttl `quot` 1000000000)
      Samples.freshCache "srv" "usr" "id1" Samples.hi 0 = (s1, None) ∧
    Del Samples.bodyUnmarshal s1 "srv" "usr" "id1" = (s2, Some Samples.hi, None) ∧
    Redis.live (server s2) (msgKey "srv" "usr" "id1") = None ∧
    Del Samples.bodyUnmarshal s2 "srv" "usr" "id1" = (s3, None, Some ErrNil).
Proof.
  apply (Del_twice_after_Set Samples.bodyMarshal Samples.bodyUnmarshal
           (λ ttl, ttl `quot` 1000000000)
           Samples.freshCache "srv" "usr" "id1" Samples.hi Samples.hi 0
           [x7b; x68; x69]).
  - reflexivity.
  - lia.
  - reflexivity.
  - discriminate.
  - reflexivity.
Defined.

End CacheProps.

(** ** More on sending *)

Module SendProps.
Import Proto Server GoInt GoIntProps Notions.

Section WithSize.
Variable Size : Message → Z.

(** X1.  For a message whose size fits 32 bits, SendMessage sends a digest
    exactly when the digest threshold is not negative and below the size;
    otherwise it writes the message with the id stored into it. *)
Theorem SendMessage_in_range (s : serverConn) (msg : Message)
    (extra : gmap string string) (ttl : Z) (id : string) :
  in_int32 (Size msg) →
  SendMessage Size s msg extra ttl id
  = if bool_decide (0 <= digestThreshold s ∧ digestThreshold s < Size msg)
    then writeDigest s msg extra (Size msg) id
    else writeAutoCompress s (withId id msg) (Size msg).
Proof.
  intros Hsz. unfold SendMessage.
  by rewrite DecisionProps.shouldDigest_in_range.
Qed.

(** X2.  For a size that fits 32 bits, a message is written with the
    compression flag exactly when the compress threshold is positive and
    below the size. *)
Theorem writeAutoCompress_in_range (s s' : serverConn) (msg : Message) (sz : Z) :
  in_int32 sz →
  writeAutoCompress s msg sz = (s', None) →
  wire s' = wire s ++
    [MessageFrame msg
       (bool_decide (0 < compressThreshold s ∧ compressThreshold s < sz))].
Proof.
  intros Hsz Hw. unfold writeAutoCompress, WriteMessage in Hw.
  rewrite DecisionProps.shouldCompress_in_range in Hw by done.
  by apply DigestProps.writeFrame_ok in Hw.
Qed.

(** X3.  With a negative digest threshold, the default of a new connection,
    no message is ever sent as a digest, whatever its size. *)
Theorem negative_threshold_never_digests (s : serverConn) (msg : Message)
    (extra : gmap string string) (ttl : Z) (id : string) :
  digestThreshold s < 0 →
  SendMessage Size s msg extra ttl id
  = WriteMessage (withId id msg) (shouldCompress s (Size msg)) s.
Proof.
  intros Hd. unfold SendMessage, shouldDigest.
  destruct (Z.leb_spec 0 (digestThreshold s)); [lia |]. reflexivity.
Qed.

(** X4.  With a compress threshold that is not positive nothing is written
    compressed, neither a message nor a digest, whatever the size. *)
Theorem nonpositive_threshold_never_compresses (s s' : serverConn)
    (msg : Message) (extra : gmap string string) (ttl : Z) (id : string) :
  compressThreshold s <= 0 →
  SendMessage Size s msg extra ttl id = (s', None) →
  ∃ f : Frame,
    wire s' = wire s ++ [f] ∧
    match f with
    | MessageFrame _ compress | CommandFrame _ compress => compress = false
    end.
Proof.
  intros Hc Hsend.
  assert (Hno : ∀ sz, shouldCompress s sz = false).
  { intros sz. unfold shouldCompress.
    destruct (Z.ltb_spec 0 (compressThreshold s)); [lia | done]. }
  unfold SendMessage in Hsend.
  destruct (shouldDigest Size s msg) as [sz [|]].
  - unfold writeDigest, WriteCommand in Hsend. rewrite Hno in Hsend.
    apply DigestProps.writeFrame_ok in Hsend.
    eexists. split; [exact Hsend | done].
  - unfold writeAutoCompress, WriteMessage in Hsend. rewrite Hno in Hsend.
    apply DigestProps.writeFrame_ok in Hsend.
    eexists. split; [exact Hsend | done].
Qed.

(** A write changes the wire and the oracle of the writes to come, and
    nothing else. *)
Lemma writeFrame_shape (f : Frame) (s s' : serverConn) (err : option error) :
  writeFrame f s = (s', err) →
  s' = set_io (wire s') (wfaults s') s ∧
  wire s' = match err with None => wire s ++ [f] | Some _ => wire s end.
Proof.
  unfold writeFrame.
  destruct (wfaults s) as [| [e |] later]; intros [= <- <-]; done.
Qed.

Lemma set_io_set_io (w w' : list Frame) (fs fs' : list (option error))
    (s : serverConn) :
  set_io w fs (set_io w' fs' s) = set_io w fs s.
Proof. reflexivity. Qed.

Lemma frameFor_set_io (w : list Frame) (fs : list (option error))
    (s : serverConn) (msg : Message) :
  frameFor Size (set_io w fs s) msg = frameFor Size s msg.
Proof. reflexivity. Qed.

Lemma sendOne_shape (s s' : serverConn) (msg : Message) (err : option error) :
  (let '(sz, sendDigest) := shouldDigest Size s msg in
   if sendDigest then writeDigest s msg ∅ sz (Id msg)
   else writeAutoCompress s msg sz) = (s', err) →
  s' = set_io (wire s') (wfaults s') s ∧
  wire s' = match err with
            | None => wire s ++ [frameFor Size s msg]
            | Some _ => wire s
            end.
Proof.
  unfold frameFor. destruct (shouldDigest Size s msg) as [sz [|]];
    intros Hw; by apply writeFrame_shape in Hw.
Qed.

(** X5.  sendAllCachedMessage's loop writes the messages in the order of
    the slice, skipping the nil ones, each with the digest and compression
    decisions of the connection; it stops at the first write that fails, so
    that an error leaves a proper prefix of the frames on the wire and no
    error means that all of them are there.  The settings are untouched. *)
Theorem sendEach_prefix (msgs : list (option Message)) :
  ∀ (s s' : serverConn) (err : option error),
    sendEach Size msgs s = (s', err) →
    ∃ k : nat,
      s' = set_io (wire s ++ take k (map (frameFor Size s) (present msgs)))
                  (wfaults s') s ∧
      match err with
      | None => k = length (present msgs)
      | Some _ => (k < length (present msgs))%nat
      end.
Proof.
  induction msgs as [| [msg |] rest IH]; intros s s' err Hsend.
  - injection Hsend as <- <-. exists 0%nat. simpl. rewrite app_nil_r.
    split; [by destruct s | done].
  - cbn [sendEach] in Hsend.
    destruct (let '(sz, sendDigest) := shouldDigest Size s msg in
              if sendDigest then writeDigest s msg ∅ sz (Id msg)
              else writeAutoCompress s msg sz) as [s1 e1] eqn:Hone.
    assert (Hstep :
      (let '(sz, sendDigest) := shouldDigest Size s msg in
       let '(s1, err) :=
         if sendDigest then writeDigest s msg ∅ sz (Id msg)
         else writeAutoCompress s msg sz in
       match err with
       | Some e => (s1, Some e)
       | None => sendEach Size rest s1
       end)
      = match e1 with Some e => (s1, Some e) | None => sendEach Size rest s1 end).
    { destruct (shouldDigest Size s msg) as [sz [|]]; by rewrite Hone. }
    rewrite Hstep in Hsend. clear Hstep.
    apply sendOne_shape in Hone. destruct Hone as [Hs1 Hw1].
    destruct e1 as [e |].
    + injection Hsend as <- <-. exists 0%nat. simpl. rewrite app_nil_r.
      split; [| lia]. by rewrite <- Hw1.
    + apply IH in Hsend. destruct Hsend as (k & Hs' & Hk).
      exists (S k). split.
      * assert (Hf : ∀ m, frameFor Size s1 m = frameFor Size s m)
          by (intros m; rewrite Hs1; reflexivity).
        assert (Hio : ∀ w fs, set_io w fs s1 = set_io w fs s)
          by (intros w fs; rewrite Hs1; reflexivity).
        rewrite Hs', Hio, Hw1, (map_ext _ _ Hf). simpl.
        by rewrite <- app_assoc.
      * destruct err; simpl; lia.
  - cbn [sendEach] in Hsend. apply IH in Hsend. exact Hsend.
Qed.

End WithSize.

Lemma SendMessage_in_range_witness :
  SendMessage (λ m, Z.of_nat (length (Body m))) Samples.connDigestAll
    Samples.hello ∅ 0 "id1"
  = writeDigest Samples.connDigestAll Samples.hello ∅ 2 "id1".
Proof.
  apply (SendMessage_in_range (λ m, Z.of_nat (length (Body m)))
           Samples.connDigestAll Samples.hello ∅ 0 "id1").
  unfold in_int32. simpl. lia.
Defined.

Lemma writeAutoCompress_in_range_witness :
  wire (fst (writeAutoCompress Samples.conn0 Samples.hello 513))
  = wire Samples.conn0 ++ [MessageFrame Samples.hello true].
Proof.
  apply (writeAutoCompress_in_range Samples.conn0
           (fst (writeAutoCompress Samples.conn0 Samples.hello 513))
           Samples.hello 513).
  - unfold in_int32. lia.
  - reflexivity.
Defined.

Lemma negative_threshold_never_digests_witness :
  SendMessage Samples.twoGiB Samples.conn0 Samples.hello ∅ 0 "id1"
  = WriteMessage (withId "id1" Samples.hello) false Samples.conn0.
Proof.
  apply (negative_threshold_never_digests Samples.twoGiB Samples.conn0
           Samples.hello ∅ 0 "id1").
  simpl. lia.
Defined.

Lemma nonpositive_threshold_never_compresses_witness :
  ∃ f : Frame,
    wire (fst (SendMessage Samples.twoGiB
                 (set_compressThreshold 0 Samples.connDigestAll)
                 Samples.hello ∅ 0 "id1"))
    = wire (set_compressThreshold 0 Samples.connDigestAll) ++ [f] ∧
    match f with
    | MessageFrame _ compress | CommandFrame _ compress => compress = false
    end.
Proof.
  apply (nonpositive_threshold_never_compresses Samples.twoGiB
           (set_compressThreshold 0 Samples.connDigestAll)
           (fst (SendMessage Samples.twoGiB
                   (set_compressThreshold 0 Samples.connDigestAll)
                   Samples.hello ∅ 0 "id1"))
           Samples.hello ∅ 0 "id1").
  - simpl. lia.
  - reflexivity.
Defined.

Lemma sendEach_prefix_witness :
  ∃ k : nat,
    fst (sendEach Samples.twoGiB [Some Samples.hello; None; Some Samples.fromAlice]
           Samples.conn0)
    = set_io (wire Samples.conn0
              ++ take k (map (frameFor Samples.twoGiB Samples.conn0)
                           (present [Some Samples.hello; None; Some Samples.fromAlice])))
             (wfaults (fst (sendEach Samples.twoGiB
                              [Some Samples.hello; None; Some Samples.fromAlice]
                              Samples.conn0)))
             Samples.conn0 ∧
    k = length (present [Some Samples.hello; None; Some Samples.fromAlice]).
Proof.
  apply (sendEach_prefix Samples.twoGiB
           [Some Samples.hello; None; Some Samples.fromAlice] Samples.conn0
           (fst (sendEach Samples.twoGiB
                   [Some Samples.hello; None; Some Samples.fromAlice] Samples.conn0))
           None).
  reflexivity.
Defined.

End SendProps.

(** ** More on the command dispatch *)

Module StateProps.
Import Proto Server GoInt GoIntProps Notions.

Section WithSize.
Variable Size : Message → Z.
Variable ParseDuration : string → Z * option error.

Lemma sendAll_shape (cache : Cache) (s s' : serverConn)
    (excludes : list string) (err : option error) :
  sendAllCachedMessage Size cache s excludes = (s', err) →
  s' = set_io (wire s') (wfaults s') s ∧ wire s `prefix_of` wire s'.
Proof.
  unfold sendAllCachedMessage.
  destruct (GetCachedMessages cache _ _ _) as [msgs [e |]].
  - intros [= <- <-]. split; [by destruct s | done].
  - intros Hsend. apply SendProps.sendEach_prefix in Hsend.
    destruct Hsend as (k & Hs' & _). rewrite Hs'. simpl.
    split; [done |]. by eexists.
Qed.

Lemma write_shape (s s' : serverConn) (msg : Message) (sz : Z)
    (err : option error) :
  writeAutoCompress s msg sz = (s', err) →
  s' = set_io (wire s') (wfaults s') s ∧ wire s `prefix_of` wire s'.
Proof.
  intros Hw. apply SendProps.writeFrame_shape in Hw. destruct Hw as [Hs Hwire].
  split; [done |]. rewrite Hwire. destruct err; [done | by eexists].
Qed.

Lemma ProcessCommand_touched (s s' : serverConn) (cmd : option Command)
    (m : option Message) (err : option error) :
  ProcessCommand Size ParseDuration s cmd = (s', m, err) →
  m = None ∧ touched s s'.
Proof.
  unfold ProcessCommand. intros H.
  destruct cmd as [cmd |]; [| injection H as <- <- <-; split; [done | apply touched_nothing]].
  destruct (Type_ cmd).
  - (* SUBSCRIPTION *)
    destruct (subChan s) as [ch |] eqn:Hch;
      [| injection H as <- <- <-; split; [done | apply touched_nothing]].
    destruct (Params cmd) as [| p0 ?];
      [injection H as <- <- <-; split; [done | apply touched_nothing] |].
    destruct (CmdMessage cmd) as [msg |];
      [| injection H as <- <- <-; split; [done | apply touched_nothing]].
    repeat case_bool_decide; injection H as <- <- <-;
      (split; [done |]); try apply touched_nothing; by apply touched_sub.
  - (* SET_VISIBILITY *)
    destruct (Params cmd) as [| p0 ?];
      [injection H as <- <- <-; split; [done | apply touched_nothing] |].
    repeat case_bool_decide; simpl in H; injection H as <- <- <-;
      (split; [done |]); try (by apply touched_nothing);
      apply touched_visible; auto.
  - (* FWD_REQ *)
    destruct (Params cmd) as [| p0 [| p1 more]];
      try (injection H as <- <- <-; split; [done | apply touched_nothing]).
    destruct (fwdChan s) as [ch |] eqn:Hch;
      injection H as <- <- <-; (split; [done |]); [| apply touched_nothing].
    by apply touched_fwd.
  - (* SETTING *)
    destruct (Params cmd) as [| p0 [| p1 more]];
      try (injection H as <- <- <-; split; [done | apply touched_nothing]).
    assert (Hself : s = set_digestFields (digestFields s)
                          (set_compressThreshold (compressThreshold s)
                             (set_digestThreshold (digestThreshold s) s)))
      by by destruct s.
    case_bool_decide.
    + destruct (Atoi p0) as [d | e0];
        [| injection H as <- <- <-; split; [done | apply touched_nothing]].
      case_bool_decide.
      * destruct (Atoi p1) as [c | e1].
        -- destruct more; injection H as <- <- <-; (split; [done |]).
           ++ apply (touched_digest s (int32 d) (int32 c) (digestFields s));
                right; apply int32_range.
           ++ apply (touched_digest s (int32 d) (int32 c) (_ :: _));
                right; apply int32_range.
        -- injection H as <- <- <-. split; [done |].
           apply (touched_digest s (int32 d) (compressThreshold s) (digestFields s));
             [right; apply int32_range | by left].
      * destruct more; injection H as <- <- <-; (split; [done |]).
        -- apply (touched_digest s (int32 d) (compressThreshold s) (digestFields s));
             [right; apply int32_range | by left].
        -- apply (touched_digest s (int32 d) (compressThreshold s) (_ :: _));
             [right; apply int32_range | by left].
    + case_bool_decide.
      * destruct (Atoi p1) as [c | e1].
        -- destruct more; injection H as <- <- <-; (split; [done |]).
           ++ apply (touched_digest s (digestThreshold s) (int32 c) (digestFields s));
                [by left | right; apply int32_range].
           ++ apply (touched_digest s (digestThreshold s) (int32 c) (_ :: _));
                [by left | right; apply int32_range].
        -- injection H as <- <- <-. split; [done | apply touched_nothing].
      * destruct more; injection H as <- <- <-; (split; [done |]).
        -- apply touched_nothing.
        -- apply (touched_digest s (digestThreshold s) (compressThreshold s) (_ :: _));
             by left.
  - (* MSG_RETRIEVE *)
    destruct (Params cmd) as [| id ?];
      [injection H as <- <- <-; split; [done | apply touched_nothing] |].
    destruct (mcache s) as [cache |].
    + destruct (cacheGet cache _ _ _) as [rmsg [e |]];
        [injection H as <- <- <-; split; [done | apply touched_nothing] |].
      destruct (writeAutoCompress s _ _) as [s1 e1] eqn:Hw.
      injection H as <- <- <-. split; [done |].
      apply write_shape in Hw. destruct Hw. by apply touched_io.
    + destruct (writeAutoCompress s _ _) as [s1 e1] eqn:Hw.
      injection H as <- <- <-. split; [done |].
      apply write_shape in Hw. destruct Hw. by apply touched_io.
  - (* REQ_ALL_CACHED *)
    destruct (mcache s) as [cache |];
      [| injection H as <- <- <-; split; [done | apply touched_nothing]].
    destruct (sendAllCachedMessage Size cache s _) as [s1 e1] eqn:Hsend.
    injection H as <- <- <-. split; [done |].
    apply sendAll_shape in Hsend. destruct Hsend. by apply touched_io.
  - injection H as <- <- <-. split; [done | apply touched_nothing].
Qed.

(** X6.  Whatever the command, ProcessCommand returns no message, and
    leaves the connection's identity and its cache as they were; the digest
    and compress thresholds stay 32 bit numbers and the visibility flag stays
    0 or 1. *)
Theorem ProcessCommand_keeps_settled (s s' : serverConn) (cmd : option Command)
    (m : option Message) (err : option error) :
  settled s →
  ProcessCommand Size ParseDuration s cmd = (s', m, err) →
  m = None ∧
  Service s' = Service s ∧ Username s' = Username s ∧ mcache s' = mcache s ∧
  settled s'.
Proof.
  intros (Hd & Hc & Hv) H. apply ProcessCommand_touched in H.
  destruct H as [-> Ht]. split; [done |].
  unfold settled.
  destruct Ht as [| v Hv' | d c fs Hd' Hc' | ch r _ _ | ch r _ _ | s' Hs' _];
    try rewrite Hs'; simpl; try done.
  do 3 (split; [done |]).
  split; [by destruct Hd' as [-> | ?] |].
  split; [by destruct Hc' as [-> | ?] | done].
Qed.

(** X7.  ProcessCommand never takes anything back from the wire: what was
    written stays, in its place.  Only MESSAGE_RETRIEVE and
    REQUEST_ALL_CACHED write at all. *)
Theorem ProcessCommand_wire (s s' : serverConn) (cmd : Command)
    (m : option Message) (err : option error) :
  ProcessCommand Size ParseDuration s (Some cmd) = (s', m, err) →
  wire s `prefix_of` wire s' ∧
  (Type_ cmd ≠ CMD_MSG_RETRIEVE → Type_ cmd ≠ CMD_REQ_ALL_CACHED →
   wire s' = wire s).
Proof.
  intros H. split.
  - apply ProcessCommand_touched in H. destruct H as [_ Ht].
    destruct Ht; simpl; try done; exists []; by rewrite app_nil_r.
  - intros Hr Ha. unfold ProcessCommand in H.
    destruct (Type_ cmd); try done;
      repeat (case_match; simplify_eq/=); by simplify_eq.
Qed.

(** X8.  The channels only grow, by at most one request per command, and a
    request that is pushed names the connection: a forward request carries
    a message with the connection's user and service as sender and no id, a
    subscribe request the connection's service and user.  A channel that is
    not set stays so. *)
Theorem ProcessCommand_channels (s s' : serverConn) (cmd : option Command)
    (m : option Message) (err : option error) :
  ProcessCommand Size ParseDuration s cmd = (s', m, err) →
  (fwdChan s' = fwdChan s ∨
   ∃ ch r, fwdChan s = Some ch ∧ fwdChan s' = Some (ch ++ [r]) ∧ stamped s r) ∧
  (subChan s' = subChan s ∨
   ∃ ch r, subChan s = Some ch ∧ subChan s' = Some (ch ++ [r]) ∧ subscribedAs s r).
Proof.
  intros H. apply ProcessCommand_touched in H. destruct H as [_ Ht].
  destruct Ht as [| v _ | d c fs _ _ | ch r Hch Hr | ch r Hch Hr | s' Hs' _];
    try rewrite Hs'; simpl; try (split; by left).
  - split; [right | by left]. by exists ch, r.
  - split; [by left | right]. by exists ch, r.
Qed.

End WithSize.

End StateProps.

(** ** The transitions one by one *)

Module TransitionProps.
Import Proto Server GoInt GoIntProps Notions.

Section WithSize.
Variable Size : Message → Z.
Variable ParseDuration : string → Z * option error.

(** X9.  SET_VISIBILITY with a parameter is never an error; "0" makes the
    connection invisible, "1" visible, and anything else leaves the flag as
    it was.  Nothing else changes. *)
Theorem set_visibility_effect (s : serverConn) (cmd : Command)
    (p0 : string) (rest : list string) :
  Type_ cmd = CMD_SET_VISIBILITY →
  Params cmd = p0 :: rest →
  ∃ s' : serverConn,
    ProcessCommand Size ParseDuration s (Some cmd) = (s', None, None) ∧
    s' = set_visible (visible s') s ∧
    Visible s' = if bool_decide (p0 = "0") then false
                 else if bool_decide (p0 = "1") then true
                 else Visible s.
Proof.
  intros Hty Hp. unfold ProcessCommand. rewrite Hty, Hp.
  repeat case_bool_decide; simpl; eexists; (split; [reflexivity |]);
    (split; [by destruct s | done]).
Qed.

(** X10.  A SETTING command whose two first parameters are numbers that fit
    32 bits is accepted: the thresholds take the two values, and the
    parameters after them, if there are any, become the digest fields;
    with none, the digest fields stay. *)
Theorem setting_accepted (s : serverConn) (cmd : Command)
    (p0 p1 : string) (more : list string) (d c : Z) :
  Type_ cmd = CMD_SETTING →
  Params cmd = p0 :: p1 :: more →
  Atoi p0 = inl d → in_int32 d →
  Atoi p1 = inl c → in_int32 c →
  ProcessCommand Size ParseDuration s (Some cmd)
  = (set_digestFields (match more with [] => digestFields s | _ => more end)
       (set_compressThreshold c (set_digestThreshold d s)),
     None, None).
Proof.
  intros Hty Hp H0 Hd H1 Hc. unfold ProcessCommand. rewrite Hty, Hp.
  rewrite !bool_decide_eq_true_2 by eauto using DispatchProps.Atoi_nonempty.
  rewrite H0, H1, !int32_id by done.
  destruct more; [by destruct s | done].
Qed.

(** X11.  Empty threshold parameters change nothing: a SETTING command with
    two empty parameters is accepted, the thresholds stay, and only the
    digest fields are replaced, when fields are given. *)
Theorem setting_empty_thresholds (s : serverConn) (cmd : Command)
    (more : list string) :
  Type_ cmd = CMD_SETTING →
  Params cmd = "" :: "" :: more →
  ProcessCommand Size ParseDuration s (Some cmd)
  = (match more with [] => s | _ => set_digestFields more s end, None, None).
Proof.
  intros Hty Hp. unfold ProcessCommand. rewrite Hty, Hp.
  rewrite !bool_decide_eq_false_2 by (intros Hne; by apply Hne).
  by destruct more.
Qed.

(** X12.  When a SETTING command is refused, the error is ErrBadPeerImpl,
    and the compress threshold, the digest fields and everything but the
    digest threshold are as before. *)
Theorem setting_refused (s s' : serverConn) (cmd : Command)
    (m : option Message) (e : error) :
  Type_ cmd = CMD_SETTING →
  ProcessCommand Size ParseDuration s (Some cmd) = (s', m, Some e) →
  e = ErrBadPeerImpl ∧ s' = set_digestThreshold (digestThreshold s') s.
Proof.
  intros Hty H. unfold ProcessCommand in H. rewrite Hty in H.
  repeat (case_match; simplify_eq/=); (split; [done |]); try done;
    first [by destruct s | by destruct s'].
Qed.

(** X13.  A MESSAGE_RETRIEVE command that succeeds has written exactly one
    frame, a message frame and never a digest, whatever the digest
    threshold: the message of the cache under the requested id, or an empty
    one when the cache has none or there is no cache, with the requested id
    stored into it. *)
Theorem msg_retrieve_sends_requested_id (s s' : serverConn) (cmd : Command)
    (id : string) (rest : list string) :
  Type_ cmd = CMD_MSG_RETRIEVE →
  Params cmd = id :: rest →
  ProcessCommand Size ParseDuration s (Some cmd) = (s', None, None) →
  ∃ (found : option Message) (compress : bool),
    found = match mcache s with
            | Some cache => fst (cacheGet cache (Service s) (Username s) id)
            | None => None
            end ∧
    wire s' = wire s ++ [MessageFrame (withId id (default newMessage found)) compress].
Proof.
  intros Hty Hp H. unfold ProcessCommand in H. rewrite Hty, Hp in H.
  destruct (mcache s) as [cache |].
  - destruct (cacheGet cache _ _ _) as [rmsg [e |]]; simpl in *;
      [discriminate H |].
    destruct (writeAutoCompress s _ _) as [s1 e1] eqn:Hw.
    injection H as <- ->.
    apply DigestProps.writeFrame_ok in Hw.
    eexists rmsg, _. split; [done |]. exact Hw.
  - destruct (writeAutoCompress s _ _) as [s1 e1] eqn:Hw.
    injection H as <- ->.
    apply DigestProps.writeFrame_ok in Hw.
    eexists None, _. split; [done |]. exact Hw.
Qed.

(** X14.  An error of the cache's Get comes back from a MESSAGE_RETRIEVE
    command as it is, and nothing is written. *)
Theorem msg_retrieve_cache_error (s : serverConn) (cmd : Command)
    (cache : Cache) (id : string) (rest : list string)
    (found : option Message) (e : error) :
  Type_ cmd = CMD_MSG_RETRIEVE →
  Params cmd = id :: rest →
  mcache s = Some cache →
  cacheGet cache (Service s) (Username s) id = (found, Some e) →
  ProcessCommand Size ParseDuration s (Some cmd) = (s, None, Some e).
Proof.
  intros Hty Hp Hc Hg. unfold ProcessCommand. by rewrite Hty, Hp, Hc, Hg.
Qed.

(** X15.  A SUBSCRIPTION command with a parameter and a message whose
    header is not empty, on a connection with a subscribe channel: "0" and
    "1" push a request to unsubscribe or subscribe, for the connection's
    own service and user, with the header as parameters; any other value
    is ignored without an error. *)
Theorem subscription_request (s : serverConn) (cmd : Command)
    (ch : list SubscribeRequest) (p0 : string) (rest : list string)
    (msg : Message) :
  Type_ cmd = CMD_SUBSCRIPTION →
  subChan s = Some ch →
  Params cmd = p0 :: rest →
  CmdMessage cmd = Some msg →
  Header msg ≠ ∅ →
  ProcessCommand Size ParseDuration s (Some cmd)
  = (if bool_decide (p0 = "0" ∨ p0 = "1")
     then set_subChan
            (Some (ch ++ [mkSubscribeRequest (bool_decide (p0 = "1"))
                            (Service s) (Username s) (Header msg)])) s
     else s,
     None, None).
Proof.
  intros Hty Hch Hp Hm Hh. unfold ProcessCommand. rewrite Hty, Hch, Hp, Hm.
  rewrite (bool_decide_eq_false_2 (size (Header msg) = 0%nat))
    by (intros Hz; by apply map_size_empty_iff in Hz).
  destruct (decide (p0 = "0")) as [-> | H0].
  - rewrite (bool_decide_eq_true_2 ("0" = "0")) by done.
    rewrite bool_decide_eq_true_2 by (by left). reflexivity.
  - rewrite (bool_decide_eq_false_2 (p0 = "0")) by done.
    destruct (decide (p0 = "1")) as [-> | H1].
    + rewrite (bool_decide_eq_true_2 ("1" = "1")) by done.
      rewrite bool_decide_eq_true_2 by (by right). reflexivity.
    + rewrite (bool_decide_eq_false_2 (p0 = "1")) by done.
      rewrite bool_decide_eq_false_2 by (intros [? | ?]; done). reflexivity.
Qed.

End WithSize.

Lemma ProcessCommand_keeps_settled_witness :
  Service (fst (fst (ProcessCommand Samples.twoGiB Samples.noDuration Samples.conn0
              (Some (mkCommand CMD_SETTING ["4294967296"; "x"] None))))) = "srv" ∧
  settled (fst (fst (ProcessCommand Samples.twoGiB Samples.noDuration Samples.conn0
              (Some (mkCommand CMD_SETTING ["4294967296"; "x"] None))))).
Proof.
  destruct (StateProps.ProcessCommand_keeps_settled Samples.twoGiB
              Samples.noDuration Samples.conn0
              (fst (fst (ProcessCommand Samples.twoGiB Samples.noDuration
                           Samples.conn0
                           (Some (mkCommand CMD_SETTING ["4294967296"; "x"] None)))))
              (Some (mkCommand CMD_SETTING ["4294967296"; "x"] None))
              None (Some ErrBadPeerImpl)) as (_ & Hs & _ & _ & Hset).
  - unfold settled, in_int32. simpl. lia.
  - reflexivity.
  - split; [exact Hs | exact Hset].
Defined.

Lemma ProcessCommand_wire_witness :
  wire Samples.conn0 `prefix_of`
    wire (fst (fst (ProcessCommand Samples.twoGiB Samples.noDuration Samples.conn0
                 (Some (mkCommand CMD_MSG_RETRIEVE ["id1"] None))))).
Proof.
  apply (StateProps.ProcessCommand_wire Samples.twoGiB Samples.noDuration
           Samples.conn0
           (fst (fst (ProcessCommand Samples.twoGiB Samples.noDuration Samples.conn0
                        (Some (mkCommand CMD_MSG_RETRIEVE ["id1"] None)))))
           (mkCommand CMD_MSG_RETRIEVE ["id1"] None) None None).
  reflexivity.
Defined.

Lemma ProcessCommand_channels_witness :
  ∃ ch r,
    fwdChan (SetForwardRequestChannel (Some []) Samples.conn0) = Some ch ∧
    fwdChan (fst (fst (ProcessCommand Samples.twoGiB Samples.noDuration
                         (SetForwardRequestChannel (Some []) Samples.conn0)
                         (Some (mkCommand CMD_FWD_REQ ["24h"; "random"]
                                  (Some Samples.fromAlice))))))
    = Some (ch ++ [r]) ∧
    stamped (SetForwardRequestChannel (Some []) Samples.conn0) r.
Proof.
  destruct (StateProps.ProcessCommand_channels Samples.twoGiB Samples.noDuration
              (SetForwardRequestChannel (Some []) Samples.conn0)
              (fst (fst (ProcessCommand Samples.twoGiB Samples.noDuration
                           (SetForwardRequestChannel (Some []) Samples.conn0)
                           (Some (mkCommand CMD_FWD_REQ ["24h"; "random"]
                                    (Some Samples.fromAlice))))))
              (Some (mkCommand CMD_FWD_REQ ["24h"; "random"] (Some Samples.fromAlice)))
              None None eq_refl) as [[Hsame | Hpush] _].
  - discriminate Hsame.
  - exact Hpush.
Defined.

Lemma set_visibility_effect_witness :
  ∃ s' : serverConn,
    ProcessCommand Samples.twoGiB Samples.noDuration Samples.conn0
      (Some (mkCommand CMD_SET_VISIBILITY ["0"] None)) = (s', None, None) ∧
    s' = set_visible (visible s') Samples.conn0 ∧
    Visible s' = false.
Proof.
  apply (set_visibility_effect Samples.twoGiB Samples.noDuration Samples.conn0
           (mkCommand CMD_SET_VISIBILITY ["0"] None) "0" []); reflexivity.
Defined.

Lemma setting_accepted_witness :
  ProcessCommand Samples.twoGiB Samples.noDuration Samples.conn0
    (Some (mkCommand CMD_SETTING ["0"; "512"; "digest"] None))
  = (set_digestFields ["digest"]
       (set_compressThreshold 512 (set_digestThreshold 0 Samples.conn0)),
     None, None).
Proof.
  apply (setting_accepted Samples.twoGiB Samples.noDuration Samples.conn0
           (mkCommand CMD_SETTING ["0"; "512"; "digest"] None)
           "0" "512" ["digest"] 0 512);
    try reflexivity; unfold in_int32; lia.
Defined.

Lemma setting_empty_thresholds_witness :
  ProcessCommand Samples.twoGiB Samples.noDuration Samples.conn0
    (Some (mkCommand CMD_SETTING [""; ""; "digest"] None))
  = (set_digestFields ["digest"] Samples.conn0, None, None).
Proof.
  apply (setting_empty_thresholds Samples.twoGiB Samples.noDuration Samples.conn0
           (mkCommand CMD_SETTING [""; ""; "digest"] None) ["digest"]);
    reflexivity.
Defined.

Lemma setting_refused_witness :
  ErrBadPeerImpl = ErrBadPeerImpl ∧
  set_digestThreshold 7 Samples.conn0
  = set_digestThreshold (digestThreshold (set_digestThreshold 7 Samples.conn0))
      Samples.conn0.
Proof.
  apply (setting_refused Samples.twoGiB Samples.noDuration Samples.conn0
           (set_digestThreshold 7 Samples.conn0)
           (mkCommand CMD_SETTING ["7"; "x"; "digest"] None) None ErrBadPeerImpl);
    reflexivity.
Defined.

Lemma msg_retrieve_sends_requested_id_witness :
  ∃ (found : option Message) (compress : bool),
    found = None ∧
    wire (fst (fst (ProcessCommand Samples.twoGiB Samples.noDuration
                      (SetMessageCache (Some Samples.emptyCache) Samples.connDigestAll)
                      (Some (mkCommand CMD_MSG_RETRIEVE ["id1"] None)))))
    = [] ++ [MessageFrame (withId "id1" (default newMessage found)) compress].
Proof.
  apply (msg_retrieve_sends_requested_id Samples.twoGiB Samples.noDuration
           (SetMessageCache (Some Samples.emptyCache) Samples.connDigestAll)
           (fst (fst (ProcessCommand Samples.twoGiB Samples.noDuration
                        (SetMessageCache (Some Samples.emptyCache) Samples.connDigestAll)
                        (Some (mkCommand CMD_MSG_RETRIEVE ["id1"] None)))))
           (mkCommand CMD_MSG_RETRIEVE ["id1"] None) "id1" []);
    reflexivity.
Defined.

Lemma msg_retrieve_cache_error_witness :
  ProcessCommand Samples.twoGiB Samples.noDuration
    (SetMessageCache (Some Samples.brokenCache) Samples.conn0)
    (Some (mkCommand CMD_MSG_RETRIEVE ["id1"] None))
  = (SetMessageCache (Some Samples.brokenCache) Samples.conn0, None,
     Some (ErrIO "dial")).
Proof.
  apply (msg_retrieve_cache_error Samples.twoGiB Samples.noDuration
           (SetMessageCache (Some Samples.brokenCache) Samples.conn0)
           (mkCommand CMD_MSG_RETRIEVE ["id1"] None)
           Samples.brokenCache "id1" [] None (ErrIO "dial"));
    reflexivity.
Defined.

Lemma subscription_request_witness :
  ProcessCommand Samples.twoGiB Samples.noDuration
    (SetSubscribeRequestChan (Some []) Samples.conn0)
    (Some (mkCommand CMD_SUBSCRIPTION ["0"] (Some Samples.hello)))
  = (set_subChan
       (Some ([] ++ [mkSubscribeRequest false "srv" "usr" (Header Samples.hello)]))
       (SetSubscribeRequestChan (Some []) Samples.conn0),
     None, None).
Proof.
  apply (subscription_request Samples.twoGiB Samples.noDuration
           (SetSubscribeRequestChan (Some []) Samples.conn0)
           (mkCommand CMD_SUBSCRIPTION ["0"] (Some Samples.hello))
           [] "0" [] Samples.hello); try reflexivity.
  intros Hh. apply (f_equal (λ m : gmap string string, m !! "aa")) in Hh.
  discriminate Hh.
Defined.

End TransitionProps.

(** ** More on cutString, the exclusion list and the digest header *)

Module ParseProps.
Import Proto Server GoInt Notions.

Lemma first_zero (data : list byte) :
  nulFree data ∨
  ∃ pre rest, nulFree pre ∧ data = pre ++ x00 :: rest.
Proof.
  induction data as [| b data IH].
  - left. constructor.
  - destruct (Byte.byte_eq_dec b x00) as [-> | Hb].
    + right. exists [], data. split; [constructor | done].
    + destruct IH as [Hfree | (pre & rest & Hpre & ->)].
      * left. by constructor.
      * right. exists (b :: pre), rest. split; [by constructor | done].
Qed.

Lemma removelast_last (data : list byte) :
  data ≠ [] → ∃ b, data = removelast data ++ [b].
Proof.
  intros Hne. exists (List.last data x00). by apply app_removelast_last.
Qed.

Lemma nulFree_app (l k : list byte) : nulFree (l ++ k) → nulFree l ∧ nulFree k.
Proof. unfold nulFree. apply Forall_app. Qed.

(** X16.  cutString refuses empty data and nothing else.  From data that
    is not empty it cuts a first part without zero bytes, one byte that it
    takes for the separator, and the rest; that byte is the first zero byte
    of the data, or, when the data has none, its last byte. *)
Theorem cutString_cases (data : list byte) :
  match data with
  | [] => cutString data = ([], [], Some ErrMalformedCommand)
  | _ =>
      ∃ (str rest : list byte) (b : byte),
        cutString data = (str, rest, None) ∧
        data = str ++ b :: rest ∧
        nulFree str ∧
        (b = x00 ∨ (rest = [] ∧ nulFree data))
  end.
Proof.
  destruct data as [| b0 data0] eqn:Hd; [reflexivity |]. rewrite <- Hd.
  assert (Hne : data ≠ []) by (subst; done). clear Hd.
  destruct (first_zero data) as [Hfree | (pre & rest & Hpre & ->)].
  - destruct (removelast_last data Hne) as [b Hb].
    exists (removelast data), [], b.
    split; [by apply ExcludeProps.cutString_unterminated |].
    split; [done |].
    split; [| by right].
    rewrite Hb in Hfree. by apply nulFree_app in Hfree as [? _].
  - exists pre, rest, x00.
    split; [by apply ExcludeProps.cutString_terminated |].
    split; [done |]. split; [done | by left].
Qed.

(** X17.  Ids without zero bytes, each written with a zero byte after it,
    are read back from the body as they were, in their order. *)
Theorem exclusion_list_round_trip (ids : list string) :
  Forall (λ id, nulFree (list_byte_of_string id)) ids →
  parseExcludes (encodeIds (map list_byte_of_string ids)) = ids.
Proof.
  intros Hids.
  rewrite ExcludeProps.parseExcludes_encodeIds by (by apply Forall_map).
  rewrite map_map. rewrite <- (map_id ids) at 2.
  apply map_ext. intros id. apply string_of_list_byte_of_string.
Qed.

(** Every sequence of bytes is a list of terminated entries followed by a
    tail without zero bytes. *)
Lemma entries_and_tail (body : list byte) :
  ∃ (ids : list (list byte)) (tail : list byte),
    body = encodeIds ids ++ tail ∧ Forall nulFree ids ∧ nulFree tail.
Proof.
  induction body as [| b body (ids & tail & -> & Hids & Htail)].
  - exists [], []. repeat split; constructor.
  - destruct (Byte.byte_eq_dec b x00) as [-> | Hb].
    + exists ([] :: ids), tail. split; [done |].
      split; [| done]. constructor; [constructor | done].
    + destruct ids as [| i ids].
      * exists [], (b :: tail). split; [done |].
        split; [constructor | by constructor].
      * exists ((b :: i) :: ids), tail. split; [done |].
        split; [| done]. inversion Hids; subst.
        constructor; [by constructor | done].
Qed.

(** X18.  What the loop over the body of a REQUEST_ALL_CACHED command reads,
    for every body: the entries that end in a zero byte, in order, and,
    when bytes are left after the last zero byte, those bytes but the last
    one as a further id.  The body is never refused. *)
Theorem parseExcludes_total (body : list byte) :
  ∃ (ids : list (list byte)) (tail : list byte),
    body = encodeIds ids ++ tail ∧ Forall nulFree ids ∧ nulFree tail ∧
    parseExcludes body
    = map string_of_list_byte ids
      ++ match tail with
         | [] => []
         | _ => [string_of_list_byte (removelast tail)]
         end.
Proof.
  destruct (entries_and_tail body) as (ids & tail & -> & Hids & Htail).
  exists ids, tail. do 3 (split; [done |]).
  unfold parseExcludes.
  by rewrite (ExcludeProps.cutAll_entries ids tail Hids Htail).
Qed.

Lemma pick_none (hdr extra : gmap string string) (f : string) :
  pick hdr extra ∅ f = None → hdr !! f = None ∧ extra !! f = None.
Proof.
  unfold pick. destruct (extra !! f); [done |]. by destruct (hdr !! f).
Qed.

(** X19.  The message attached to a digest.  There is one exactly when a
    configured digest field occurs in the header of the message or in the
    extra map.  It has no id, no sender and no body, and its header holds
    the configured fields that occur, and no other key: each with the value
    of the extra map, or else that of the message's header. *)
Theorem digestCommand_attached (s : serverConn) (msg : Message)
    (extra : gmap string string) (sz : Z) (id : string) :
  match CmdMessage (digestCommand s msg extra sz id) with
  | None =>
      ∀ f, f ∈ digestFields s → Header msg !! f = None ∧ extra !! f = None
  | Some aux =>
      Id aux = "" ∧ Sender aux = "" ∧ SenderService aux = "" ∧ Body aux = [] ∧
      (∃ f, f ∈ digestFields s ∧ is_Some (Header aux !! f)) ∧
      ∀ f, Header aux !! f
           = if bool_decide (f ∈ digestFields s)
             then pick (Header msg) extra ∅ f
             else None
  end.
Proof.
  unfold digestCommand. cbn [CmdMessage].
  set (header := digestHeader (digestFields s) (Header msg) extra ∅).
  assert (Hl : ∀ f, header !! f
                    = if bool_decide (f ∈ digestFields s)
                      then pick (Header msg) extra ∅ f else None).
  { intros f. unfold header. rewrite DigestProps.digestHeader_lookup.
    by rewrite lookup_empty. }
  case_bool_decide as Hsize.
  - cbn [Id Sender SenderService Body Header]. do 4 (split; [done |]).
    split; [| exact Hl].
    destruct (map_choose header) as (f & v & Hf).
    { intros ->. by apply Hsize, map_size_empty_iff. }
    exists f. split; [| by rewrite Hf].
    rewrite Hl in Hf. by case_bool_decide.
  - assert (Hempty : header = ∅).
    { apply map_size_empty_iff. destruct (decide (size header = 0%nat)); done. }
    intros f Hin. apply pick_none.
    specialize (Hl f). rewrite Hempty, lookup_empty in Hl.
    by rewrite bool_decide_eq_true_2 in Hl.
Qed.

End ParseProps.

Module ParseWitness.
Import Proto Server Notions.

Lemma exclusion_list_round_trip_witness :
  parseExcludes [x61; x00; x62; x63; x00] = ["a"; "bc"].
Proof.
  apply (ParseProps.exclusion_list_round_trip ["a"; "bc"]).
  repeat constructor; discriminate.
Defined.

End ParseWitness.

(** ** More on the redis message cache *)

Module StoreProps.
Import Proto MsgCache Notions.

Lemma split_at_colon (a a' b b' : string) :
  colonFree a → colonFree a' →
  a +:+ String ":" b = a' +:+ String ":" b' →
  a = a' ∧ b = b'.
Proof.
  revert a'. induction a as [| c a IH]; intros [| c' a'] Ha Ha' Heq;
    simpl in *.
  - by injection Heq as ->.
  - injection Heq as <- _. by destruct Ha'.
  - injection Heq as -> _. by destruct Ha.
  - injection Heq as -> Heq. destruct Ha as [_ Ha], Ha' as [_ Ha'].
    destruct (IH a' Ha Ha' Heq) as [-> ->]. done.
Qed.

(** X20.  msgKey tells triples apart as long as neither the service nor the
    user name holds a colon (the id may). *)
Theorem msgKey_injective (service username id service' username' id' : string) :
  colonFree service → colonFree username →
  colonFree service' → colonFree username' →
  msgKey service username id = msgKey service' username' id' →
  service = service' ∧ username = username' ∧ id = id'.
Proof.
  intros Hs Hu Hs' Hu' Heq. unfold msgKey in Heq. simpl in Heq.
  injection Heq as Heq.
  apply split_at_colon in Heq as [-> Heq]; [| done | done].
  apply split_at_colon in Heq as [-> ->]; done.
Qed.

Section WithCodec.
Variable jsonMarshal : Message → list byte + error.
Variable jsonUnmarshal : list byte → Message + error.
Variable wholeSeconds : Z → Z.

(** X21.  What Set has stored, Get reads back, and leaves in place: on a
    working network, after a Set with a ttl that is not positive, Get for
    the same triple answers the message the codec reads from the stored
    bytes, and the cache is as before the Get, so that it can be read
    again. *)
Theorem Get_after_Set (self : redisMessageCache) (service username id : string)
    (msg msg' : Message) (ttl : Z) (data : list byte) :
  network self = [] →
  ttl <= 0 →
  jsonMarshal msg = inl data →
  jsonUnmarshal data = inl msg' →
  ∃ s1 : redisMessageCache,
    Set_ jsonMarshal wholeSeconds self service username id msg ttl = (s1, None) ∧
    Get jsonUnmarshal s1 service username id = (s1, Some msg', None).
Proof.
  destruct self as [σ net]. simpl. intros -> Httl Hm Hu.
  eexists. split; [by apply CacheProps.Set_healthy |].
  rewrite CacheProps.Get_healthy, CacheProps.live_stored.
  unfold msgUnmarshal. by rewrite Hu.
Qed.

(** X22.  Get never changes what the server holds, whatever the network
    does and whatever is stored. *)
Theorem Get_keeps_server (self : redisMessageCache)
    (service username id : string) :
  server (fst (fst (Get jsonUnmarshal self service username id))) = server self.
Proof.
  destruct self as [[db clock] net].
  unfold Get, poolGet, Redis.Do, Redis.failing. simpl.
  destruct net as [| [|] net]; simpl; try done;
    destruct (Redis.live _ _) as [data |]; simpl; try done;
    by destruct (msgUnmarshal jsonUnmarshal data).
Qed.

(** X23.  Del touches one key only: whatever the network does, every other
    key holds after a Del what it held before, and the clock of the server
    is not moved. *)
Theorem Del_keeps_other_keys (self : redisMessageCache)
    (service username id other : string) :
  other ≠ msgKey service username id →
  Redis.db (server (fst (fst (Del jsonUnmarshal self service username id)))) !! other
  = Redis.db (server self) !! other ∧
  Redis.clock (server (fst (fst (Del jsonUnmarshal self service username id))))
  = Redis.clock (server self).
Proof.
  intros Hne. destruct self as [[db clock] net].
  unfold Del, poolGet, Redis.Send, Redis.Do, Redis.failing. simpl.
  destruct net as [| [|] [| [|] [| [|] [| [|] net]]]]; simpl; try done;
    destruct (Redis.live _ _) as [data |]; simpl;
    repeat case_bool_decide; simpl;
    try destruct (msgUnmarshal jsonUnmarshal data); simpl;
    by rewrite ?lookup_delete_ne.
Qed.

(** X24.  Set, too, touches one key only, whatever the network does and
    whether or not it succeeds. *)
Theorem Set_keeps_other_keys (self : redisMessageCache)
    (service username id other : string) (msg : Message) (ttl : Z) :
  other ≠ msgKey service username id →
  Redis.db (server (fst (Set_ jsonMarshal wholeSeconds self service username id
                           msg ttl))) !! other
  = Redis.db (server self) !! other.
Proof.
  intros Hne. destruct self as [[db clock] net].
  unfold Set_, poolGet, Redis.Do, Redis.failing, msgMarshal. simpl.
  destruct (jsonMarshal msg) as [data | e]; [| done].
  destruct (ttl <=? 0); destruct net as [| [|] net]; simpl; try done;
    try (by rewrite lookup_insert_ne);
    destruct (wholeSeconds ttl <=? 0); simpl; try done;
    by rewrite lookup_insert_ne.
Qed.

(** X25.  Del removes an entry even when it cannot hand it over: when the
    stored bytes are not a message for the codec, Del answers the codec's
    error with a nil message, and the entry is gone. *)
Theorem Del_undecodable (self : redisMessageCache)
    (service username id : string) (data : list byte) (e : error) :
  network self = [] →
  Redis.live (server self) (msgKey service username id) = Some data →
  data ≠ [] →
  jsonUnmarshal data = inr e →
  ∃ s1 : redisMessageCache,
    Del jsonUnmarshal self service username id = (s1, None, Some e) ∧
    Redis.live (server s1) (msgKey service username id) = None.
Proof.
  destruct self as [σ net]. simpl. intros -> Hlive Hdata Hu.
  eexists. split.
  - rewrite CacheProps.Del_healthy. cbv zeta. rewrite Hlive.
    rewrite bool_decide_eq_false_2 by done.
    unfold msgUnmarshal. rewrite Hu. reflexivity.
  - apply CacheProps.live_deleted.
Qed.

(** X26.  A positive ttl of n whole seconds: the entry that Set stores is
    read by Get as long as less than n seconds have passed on the server,
    and is absent, which Get reports as ErrNil, from then on. *)
Theorem Set_with_ttl_expires (self : redisMessageCache)
    (service username id : string) (msg msg' : Message) (ttl t : Z)
    (data : list byte) :
  network self = [] →
  0 < ttl →
  0 < wholeSeconds ttl →
  jsonMarshal msg = inl data →
  jsonUnmarshal data = inl msg' →
  ∃ s1 : redisMessageCache,
    Set_ jsonMarshal wholeSeconds self service username id msg ttl = (s1, None) ∧
    snd (Get jsonUnmarshal (mkRedisCache (Redis.elapse t (server s1)) [])
           service username id)
    = (if t <? wholeSeconds ttl then None else Some ErrNil) ∧
    snd (fst (Get jsonUnmarshal (mkRedisCache (Redis.elapse t (server s1)) [])
                service username id))
    = (if t <? wholeSeconds ttl then Some msg' else None).
Proof.
  destruct self as [[db clock] net]. simpl. intros -> Httl Hn Hm Hu.
  eexists. split.
  - unfold Set_, msgMarshal, poolGet, Redis.Do, Redis.failing. rewrite Hm. simpl.
    destruct (Z.leb_spec ttl 0); [lia |]. simpl.
    destruct (Z.leb_spec (wholeSeconds ttl) 0); [lia |]. reflexivity.
  - rewrite CacheProps.Get_healthy. unfold Redis.live, Redis.elapse. simpl.
    rewrite lookup_insert_eq. simpl.
    destruct (Z.leb_spec (clock + wholeSeconds ttl) (clock + t));
      destruct (Z.ltb_spec t (wholeSeconds ttl)); try lia; simpl.
    + done.
    + unfold msgUnmarshal. by rewrite Hu.
Qed.

(** X27.  A ttl that is not positive stores for good: however much time
    passes on the server, Get reads the message. *)
Theorem Set_without_ttl_stays (self : redisMessageCache)
    (service username id : string) (msg msg' : Message) (ttl t : Z)
    (data : list byte) :
  network self = [] →
  ttl <= 0 →
  jsonMarshal msg = inl data →
  jsonUnmarshal data = inl msg' →
  ∃ s1 : redisMessageCache,
    Set_ jsonMarshal wholeSeconds self service username id msg ttl = (s1, None) ∧
    Get jsonUnmarshal (mkRedisCache (Redis.elapse t (server s1)) [])
      service username id
    = (mkRedisCache (Redis.elapse t (server s1)) [], Some msg', None).
Proof.
  destruct self as [σ net]. simpl. intros -> Httl Hm Hu.
  eexists. split; [by apply CacheProps.Set_healthy |].
  rewrite CacheProps.Get_healthy. unfold Redis.live, Redis.elapse. simpl.
  rewrite lookup_insert_eq. simpl.
  unfold msgUnmarshal. by rewrite Hu.
Qed.

(** X28.  A positive ttl of less than a whole second cannot be stored: the
    server refuses SETEX with an expire time of zero, Set returns the
    server's error, and nothing is stored. *)
Theorem Set_subsecond_ttl_refused (self : redisMessageCache)
    (service username id : string) (msg : Message) (ttl : Z)
    (data : list byte) :
  network self = [] →
  0 < ttl →
  wholeSeconds ttl <= 0 →
  jsonMarshal msg = inl data →
  ∃ text : string,
    Set_ jsonMarshal wholeSeconds self service username id msg ttl
    = (self, Some (ErrReply text)).
Proof.
  destruct self as [[db clock] net]. simpl. intros -> Httl Hn Hm.
  unfold Set_, msgMarshal, poolGet, Redis.Do, Redis.failing. rewrite Hm. simpl.
  destruct (Z.leb_spec ttl 0); [lia |]. simpl.
  destruct (Z.leb_spec (wholeSeconds ttl) 0); [| lia]. simpl. by eexists.
Qed.

End WithCodec.

Lemma msgKey_injective_witness :
  "srv" = "srv" ∧ "usr" = "usr" ∧ "a:b" = "a:b".
Proof.
  apply (msgKey_injective "srv" "usr" "a:b" "srv" "usr" "a:b");
    try reflexivity; simpl; repeat split; discriminate.
Defined.

Lemma Get_after_Set_witness :
  ∃ s1 : redisMessageCache,
    Set_ Samples.bodyMarshal Samples.seconds Samples.freshCache "srv" "usr" "id1"
      Samples.hi 0 = (s1, None) ∧
    Get Samples.bodyUnmarshal s1 "srv" "usr" "id1" = (s1, Some Samples.hi, None).
Proof.
  apply (Get_after_Set Samples.bodyMarshal Samples.bodyUnmarshal Samples.seconds
           Samples.freshCache "srv" "usr" "id1" Samples.hi Samples.hi 0
           [x7b; x68; x69]); first [reflexivity | lia].
Defined.

Lemma Del_keeps_other_keys_witness :
  Redis.db (server (fst (fst (Del Samples.bodyUnmarshal Samples.freshCache
                                "srv" "usr" "id1")))) !! "mcache:srv:usr:id2"
  = Redis.db (server Samples.freshCache) !! "mcache:srv:usr:id2" ∧
  Redis.clock (server (fst (fst (Del Samples.bodyUnmarshal Samples.freshCache
                                   "srv" "usr" "id1"))))
  = Redis.clock (server Samples.freshCache).
Proof.
  apply (Del_keeps_other_keys Samples.bodyUnmarshal Samples.freshCache
           "srv" "usr" "id1" "mcache:srv:usr:id2").
  discriminate.
Defined.

Lemma Set_keeps_other_keys_witness :
  Redis.db (server (fst (Set_ Samples.bodyMarshal Samples.seconds Samples.freshCache
                           "srv" "usr" "id1" Samples.hi 0))) !! "mcache:srv:usr:id2"
  = Redis.db (server Samples.freshCache) !! "mcache:srv:usr:id2".
Proof.
  apply (Set_keeps_other_keys Samples.bodyMarshal Samples.seconds Samples.freshCache
           "srv" "usr" "id1" "mcache:srv:usr:id2" Samples.hi 0).
  discriminate.
Defined.

Lemma Del_undecodable_witness :
  ∃ s1 : redisMessageCache,
    Del Samples.bodyUnmarshal
      (mkRedisCache
         (Redis.mkServer {[ "mcache:srv:usr:id1" := Redis.mkEntry [x68] None ]} 0) [])
      "srv" "usr" "id1"
    = (s1, None, Some (ErrJSON "unexpected input")) ∧
    Redis.live (server s1) (msgKey "srv" "usr" "id1") = None.
Proof.
  apply (Del_undecodable Samples.bodyUnmarshal
           (mkRedisCache
              (Redis.mkServer {[ "mcache:srv:usr:id1" := Redis.mkEntry [x68] None ]} 0) [])
           "srv" "usr" "id1" [x68] (ErrJSON "unexpected input"));
    first [reflexivity | discriminate].
Defined.

Lemma Set_with_ttl_expires_witness :
  ∃ s1 : redisMessageCache,
    Set_ Samples.bodyMarshal Samples.seconds Samples.freshCache "srv" "usr" "id1"
      Samples.hi 1000000000 = (s1, None) ∧
    snd (Get Samples.bodyUnmarshal (mkRedisCache (Redis.elapse 2 (server s1)) [])
           "srv" "usr" "id1") = Some ErrNil ∧
    snd (fst (Get Samples.bodyUnmarshal
                (mkRedisCache (Redis.elapse 2 (server s1)) [])
                "srv" "usr" "id1")) = None.
Proof.
  apply (Set_with_ttl_expires Samples.bodyMarshal Samples.bodyUnmarshal Samples.seconds
           Samples.freshCache "srv" "usr" "id1" Samples.hi Samples.hi
           1000000000 2 [x7b; x68; x69]);
    first [reflexivity | unfold Samples.seconds; simpl; lia].
Defined.

Lemma Set_without_ttl_stays_witness :
  ∃ s1 : redisMessageCache,
    Set_ Samples.bodyMarshal Samples.seconds Samples.freshCache "srv" "usr" "id1"
      Samples.hi 0 = (s1, None) ∧
    Get Samples.bodyUnmarshal (mkRedisCache (Redis.elapse 86400 (server s1)) [])
      "srv" "usr" "id1"
    = (mkRedisCache (Redis.elapse 86400 (server s1)) [], Some Samples.hi, None).
Proof.
  apply (Set_without_ttl_stays Samples.bodyMarshal Samples.bodyUnmarshal Samples.seconds
           Samples.freshCache "srv" "usr" "id1" Samples.hi Samples.hi 0 86400
           [x7b; x68; x69]); first [reflexivity | lia].
Defined.

Lemma Set_subsecond_ttl_refused_witness :
  ∃ text : string,
    Set_ Samples.bodyMarshal Samples.seconds Samples.freshCache "srv" "usr" "id1"
      Samples.hi 500000000
    = (Samples.freshCache, Some (ErrReply text)).
Proof.
  apply (Set_subsecond_ttl_refused Samples.bodyMarshal Samples.seconds
           Samples.freshCache "srv" "usr" "id1" Samples.hi 500000000
           [x7b; x68; x69]);
    first [reflexivity | unfold Samples.seconds; simpl; lia].
Defined.

End StoreProps.

(** ** The helper of the cache tests *)

Module CacheTestProps.
Import CacheTest.

Lemma found_spec (s : string) (b : list string) : found s b = true ↔ s ∈ b.
Proof.
  induction b as [| t rest IH]; simpl.
  - split; [done | by intros ?%not_elem_of_nil].
  - case_bool_decide as Hst.
    + subst. split; [intros _; apply list_elem_of_here | done].
    + rewrite IH. split.
      * by apply list_elem_of_further.
      * intros [? | ?]%elem_of_cons; done.
Qed.

Lemma allFound_spec (a b : list string) :
  allFound a b = true ↔ ∀ s, s ∈ a → s ∈ b.
Proof.
  induction a as [| x rest IH]; simpl.
  - split; [by intros _ s ?%not_elem_of_nil | done].
  - destruct (found x b) eqn:Hx.
    + apply found_spec in Hx. rewrite IH. split.
      * intros Hrest s [-> | ?]%elem_of_cons; [done | by apply Hrest].
      * intros Hall s Hs. apply Hall. by apply list_elem_of_further.
    + split; [done |]. intros Hall.
      assert (found x b = true) by (apply found_spec, Hall, list_elem_of_here).
      congruence.
Qed.

(** X29.  On a first list without repetitions, which is how the tests use
    it, strSetEq says yes exactly when the second list is a rearrangement
    of the first. *)
Theorem strSetEq_permutation (a b : list string) :
  NoDup a → (strSetEq a b = true ↔ a ≡ₚ b).
Proof.
  intros Hnd. unfold strSetEq. case_bool_decide as Hlen.
  - split; [done |]. intros Hp. by apply Permutation_length in Hp.
  - assert (Heq : length a = length b)
      by (destruct (decide (length a = length b)); done).
    rewrite allFound_spec. split.
    + intros Hall. apply submseteq_length_Permutation; [| lia].
      by apply NoDup_submseteq.
    + intros Hp s Hs. by rewrite <- Hp.
Qed.

Lemma strSetEq_permutation_witness :
  strSetEq ["id1"; "id2"; "id3"] ["id3"; "id1"; "id2"] = true
  ↔ ["id1"; "id2"; "id3"] ≡ₚ ["id3"; "id1"; "id2"].
Proof.
  apply (strSetEq_permutation ["id1"; "id2"; "id3"] ["id3"; "id1"; "id2"]).
  apply (bool_decide_unpack _). vm_compute. reflexivity.
Defined.

End CacheTestProps.
